(** * Data-access layer of the inventory admin front end (src/api.js)

    A shallow embedding of the exported functions of [api.js] and the
    properties of its documented contract.

    - JavaScript values and object literals are modelled in [Js]:
      an object is a finite map from property names to values.
    - Every exported function performs clock reads ([Date.now()],
      [new Date()]) and exactly one awaited round trip to the query
      client.  Those effects are the constructors of [prog]; a function
      of the module is a term of [prog value].
    - The query client itself ([./lib/supabaseClient]) is not part of
      [api.js].  What [api.js] hands to it is the [request] assembled by
      the builder chain; what it hands back is a [response]
      [{ data, error }].  Module [Store] gives a reference semantics of
      the client over an in-memory table store. *)

From stdpp Require Import gmap strings list fin_maps pretty.
From Stdlib Require Import ZArith Ascii String Sorted.

Set Warnings "-register-all".

Local Open Scope string_scope.
Local Open Scope Z_scope.

(** ** JavaScript values *)

Module Js.

(** Numbers are the integral ones (timestamps, ids, quantities); a
    [Date] is its epoch time in milliseconds.  Strings are sequences of
    code units below 256, that is, Latin-1 text. *)
Inductive value : Type :=
| VUndefined
| VNull
| VBool (b : bool)
| VNum (n : Z)
| VStr (s : string)
| VDate (t : Z)
| VObj (o : gmap string value)
| VArr (l : list value).

Abbreviation obj := (gmap string value).

(** [ToBoolean]: what [if (v)], [!v] and [a || b] test. *)
Definition truthy (v : value) : bool :=
  match v with
  | VUndefined | VNull => false
  | VBool b => b
  | VNum n => negb (n =? 0)
  | VStr s => negb (String.eqb s "")
  | VDate _ | VObj _ | VArr _ => true
  end.

(** Property read [o.k]: a missing property reads as [undefined]. *)
Definition get (o : obj) (k : string) : value :=
  default VUndefined (o !! k).

(** Object literal [{ ...o, k: v }] is [<[k:=v]> o]: the spread copies
    the own properties of [o], a later key overrides an earlier one. *)

(** Thrown values: [throw new Error(msg)] and [throw v]. *)
Inductive exn : Type :=
| Error (msg : string)
| Thrown (v : value).

(** *** String built-ins *)

Definition is_upper (c : ascii) : bool :=
  let n := nat_of_ascii c in
  ((65 <=? n) && (n <=? 90) ||
   (192 <=? n) && (n <=? 222) && negb (n =? 215))%nat.

(** Lower-case mapping of one Latin-1 code unit: [A]-[Z] and the
    accented capitals U+00C0-U+00DE (without the sign U+00D7) move up
    by 32, everything else is its own lower case. *)
Definition lower_char (c : ascii) : ascii :=
  if is_upper c then ascii_of_nat (nat_of_ascii c + 32) else c.

(** [String.prototype.toLowerCase] *)
Fixpoint toLowerCase (s : string) : string :=
  match s with
  | EmptyString => EmptyString
  | String c s' => String (lower_char c) (toLowerCase s')
  end.

(** White space and line terminators below 256: TAB, LF, VT, FF, CR,
    SP and NBSP. *)
Definition is_space (c : ascii) : bool :=
  let n := nat_of_ascii c in
  ((9 <=? n) && (n <=? 13) || (n =? 32) || (n =? 160))%nat.

Fixpoint trimStart (s : string) : string :=
  match s with
  | EmptyString => EmptyString
  | String c s' => if is_space c then trimStart s' else s
  end.

Fixpoint trimEnd (s : string) : string :=
  match s with
  | EmptyString => EmptyString
  | String c s' =>
      match trimEnd s' with
      | EmptyString => if is_space c then EmptyString else String c EmptyString
      | t => String c t
      end
  end.

(** [String.prototype.trim] *)
Definition trim (s : string) : string := trimEnd (trimStart s).

(** Template-literal rendering of an integral number, [`${n}`]. *)
Definition number_to_string (n : Z) : string := pretty n.

End Js.
Export Js.

(** ** Requests and responses of the query client *)

Module Client.

(** The four kinds of call made on a table handle. *)
Inductive verb : Type :=
| SELECT (columns : string)
| INSERT (rows : list obj)
| UPDATE (payload : obj)
| DELETE.

Inductive filter : Type :=
| FEq (column : string) (v : value)
| FILike (column : string) (pattern : string).

(** What a builder chain has accumulated when it is awaited. *)
Record request : Type := Request {
  table : string;
  method : verb;
  filters : list filter;      (* in the order they were chained *)
  returning : bool;           (* [.select()] chained on a mutation *)
  row_limit : option nat;     (* [.limit(n)] *)
  want_single : bool          (* [.single()] *)
}.

(** The awaited result, destructured as [{ data, error }]. *)
Record response : Type := Response {
  data : value;
  error : value
}.

Definition start (t : string) (m : verb) : request :=
  Request t m [] false None false.

(** [supabase.from(t)] is a handle on table [t]. *)
Definition from (t : string) : string := t.

Definition select (columns : string) (t : string) : request :=
  start t (SELECT columns).
Definition insert (rows : list obj) (t : string) : request :=
  start t (INSERT rows).
Definition update (payload : obj) (t : string) : request :=
  start t (UPDATE payload).
Definition delete (t : string) : request :=
  start t DELETE.

Definition eq (column : string) (v : value) (q : request) : request :=
  Request (table q) (method q) (filters q ++ [FEq column v])
          (returning q) (row_limit q) (want_single q).
Definition ilike (column pattern : string) (q : request) : request :=
  Request (table q) (method q) (filters q ++ [FILike column pattern])
          (returning q) (row_limit q) (want_single q).
(** [.select()] after [insert]/[update]: ask for the written rows. *)
Definition select_ (q : request) : request :=
  Request (table q) (method q) (filters q) true (row_limit q) (want_single q).
Definition limit (n : nat) (q : request) : request :=
  Request (table q) (method q) (filters q) (returning q) (Some n) (want_single q).
Definition single (q : request) : request :=
  Request (table q) (method q) (filters q) (returning q) (row_limit q) true.

End Client.
Export Client.

(** Method chaining: [a |> f |> g] is [a.f().g()]. *)
Notation "a |> f" := (f a) (at level 45, left associativity, only parsing).

(** ** Programs: clock reads and one awaited round trip *)

Inductive prog (A : Type) : Type :=
| Ret (a : A)
| Throw (e : exn)
| Clock (k : Z -> prog A)
| Await (q : request) (k : response -> prog A).

Arguments Ret {A} a.
Arguments Throw {A} e.
Arguments Clock {A} k.
Arguments Await {A} q k.

Fixpoint bind {A B} (p : prog A) (f : A -> prog B) : prog B :=
  match p with
  | Ret a => f a
  | Throw e => Throw e
  | Clock k => Clock (fun t => bind (k t) f)
  | Await q k => Await q (fun r => bind (k r) f)
  end.

#[global] Instance prog_ret : MRet prog := @Ret.
#[global] Instance prog_bind : MBind prog := fun A B f p => bind p f.

(** [new Date()] and [Date.now()] both read the wall clock, in
    milliseconds since the epoch. *)
Definition new_Date : prog value := Clock (fun t => Ret (VDate t)).
Definition Date_now : prog Z := Clock (fun t => Ret t).
Definition await (q : request) : prog response := Await q Ret.
Definition throw {A} (e : exn) : prog A := Throw e.

(** What a call does, seen from the client: the request it sends
    (with the clock giving [clk n], [clk (n+1)], ... on its reads) and
    how it goes on once the response [r] is in. *)
Fixpoint sent {A} (p : prog A) (clk : nat -> Z) (n : nat) : option request :=
  match p with
  | Ret _ | Throw _ => None
  | Clock k => sent (k (clk n)) clk (S n)
  | Await q _ => Some q
  end.

Fixpoint answer {A} (p : prog A) (clk : nat -> Z) (n : nat) (r : response)
    : prog A :=
  match p with
  | Ret _ | Throw _ => p
  | Clock k => answer (k (clk n)) clk (S n) r
  | Await _ k => k r
  end.

(** ** The exported functions of api.js *)

Section Api.

(** [CryptoJS.SHA256(pin).toString(CryptoJS.enc.Base64)], the digest of
    the crypto library, text-encoded. *)
Context (sha256_base64 : value -> string).

Definition hashPin (pin : value) : string := sha256_base64 pin.

Definition login (email : string) (password : value) : prog value :=
  let pinHash := hashPin password in
  r ← await (from "employees"
             |> select "*"
             |> eq "email" (VStr (trim (toLowerCase email)))
             |> eq "pin_hash" (VStr pinHash)
             |> single);
  if truthy (error r) || negb (truthy (data r))
  then throw (Error "LOGIN_FAILED")
  else mret (data r).

Definition searchItems (query : string) : prog value :=
  r ← await (from "items"
             |> select "*"
             |> ilike "name" ("%" ++ query ++ "%"));
  if truthy (error r) then throw (Thrown (error r)) else mret (data r).

Definition deleteItem (id : value) : prog value :=
  r ← await (from "items" |> delete |> eq "id" id);
  if truthy (error r) then throw (Thrown (error r))
  else mret (VObj {[ "success" := VBool true ]}).

Definition addEmployee (employee : obj) : prog value :=
  let pin_hash := hashPin (get employee "pin") in
  created_at ← new_Date;
  updated_at ← new_Date;
  r ← await (from "employees"
             |> insert [ <["updated_at" := updated_at]>
                         (<["created_at" := created_at]>
                          (<["pin_hash" := VStr pin_hash]> employee)) ]
             |> select_
             |> single);
  if truthy (error r) then throw (Thrown (error r)) else mret (data r).

Definition updateEmployee (employee : obj) : prog value :=
  updated_at ← new_Date;
  let payload := <["updated_at" := updated_at]> employee in
  let payload :=
    if truthy (get employee "pin")
    then <["pin_hash" := VStr (hashPin (get employee "pin"))]> payload
    else payload in
  r ← await (from "employees"
             |> update payload
             |> eq "id" (get employee "id")
             |> select_
             |> single);
  if truthy (error r) then throw (Thrown (error r)) else mret (data r).

Definition addTask (taskData : obj) : prog value :=
  now ← Date_now;
  let taskId := "TASK" ++ number_to_string now in
  created_at ← new_Date;
  r ← await (from "tasks"
             |> insert [ <["created_at" := created_at]>
                         (<["task_id" := VStr taskId]> taskData) ]
             |> select_
             |> single);
  if truthy (error r) then throw (Thrown (error r)) else mret (data r).

Definition deleteTask (taskId : value) : prog value :=
  r ← await (from "tasks" |> delete |> eq "task_id" taskId);
  if truthy (error r) then throw (Thrown (error r))
  else mret (VObj {[ "success" := VBool true ]}).

(** [data.length] and [data[0]] of the awaited [data]. *)
Definition length_is_0 (d : value) : bool :=
  match d with
  | VArr l => match l with [] => true | _ => false end
  | VStr s => String.eqb s ""
  | VObj o => match get o "length" with VNum 0 => true | _ => false end
  | _ => false
  end.

Definition first (d : value) : value :=
  match d with
  | VArr (x :: _) => x
  | VStr (String c _) => VStr (String c EmptyString)
  | VObj o => get o "0"
  | _ => VUndefined
  end.

Definition getLowStockThreshold : prog value :=
  r ← await (from "settings"
             |> select "*"
             |> eq "setting_key" (VStr "LOW_STOCK_THRESHOLD")
             |> limit 1);
  if truthy (error r) || negb (truthy (data r)) || length_is_0 (data r)
  then mret VNull
  else mret (first (data r)).

End Api.

(** ** Reference semantics of the query client *)

Module Store.

(** The query client of [./lib/supabaseClient] and the store behind it
    are not part of [api.js].  The spec describes the client as a
    structured-query client over named tables with [select], [insert],
    [update] and [delete], "equality/pattern filters ([eq], [ilike])",
    a limit and the [single()] shaping, "returning either a result set
    or a reported error".  This module gives that client a semantics
    over in-memory tables; rows hold the values they were handed,
    unconverted. *)

(** *** ILIKE patterns *)

(** What a pattern is made of: [%], [_], and characters that stand for
    themselves. *)
Inductive token : Type :=
| Any
| One
| Lit (c : ascii).

(** The REST gateway in front of the database reads [*] in a pattern
    as another spelling of [%]. *)
Definition star_to_percent (c : ascii) : ascii :=
  if Ascii.eqb c "*" then "%"%char else c.

Fixpoint stars_to_percents (p : string) : string :=
  match p with
  | EmptyString => EmptyString
  | String c p' => String (star_to_percent c) (stars_to_percents p')
  end.

Definition backslash : ascii := "092"%char.

(** Modelled from the spec: the pattern language of the [ilike] filter
    (the client is not under src/), as the case-insensitive LIKE of the
    SQL backend has it: [%] stands for any sequence of characters, [_]
    for any one character, a backslash takes the next character
    literally, and a pattern that ends in a lone backslash is refused. *)
Fixpoint compile (p : string) : option (list token) :=
  match p with
  | EmptyString => Some []
  | String c p' =>
      if Ascii.eqb c backslash then
        match p' with
        | EmptyString => None
        | String d p'' => cons (Lit d) <$> compile p''
        end
      else if Ascii.eqb c "%" then cons Any <$> compile p'
      else if Ascii.eqb c "_" then cons One <$> compile p'
      else cons (Lit c) <$> compile p'
  end.

(** Modelled from the spec: whether the whole of [s] matches the
    pattern, letters compared up to case ("case-insensitively"). *)
Fixpoint matches (p : list token) (s : string) : bool :=
  match p with
  | [] => match s with EmptyString => true | _ => false end
  | Lit c :: p' =>
      match s with
      | String d s' => Ascii.eqb (lower_char c) (lower_char d) && matches p' s'
      | EmptyString => false
      end
  | One :: p' =>
      match s with
      | String _ s' => matches p' s'
      | EmptyString => false
      end
  | Any :: p' =>
      (fix skip (s : string) : bool :=
         matches p' s ||
         match s with
         | EmptyString => false
         | String _ s' => skip s'
         end) s
  end.

(** [None]: the pattern is refused. *)
Definition ilike_match (pattern s : string) : option bool :=
  ts ← compile (stars_to_percents pattern);
  Some (matches ts s).

(** *** Filters *)

(** Modelled from the spec: the column comparison of the [eq] filter.
    Scalars compare by value; nothing equals [null], a missing column,
    an object or an array. *)
Definition eq_value (a b : value) : bool :=
  match a, b with
  | VBool x, VBool y => Bool.eqb x y
  | VNum x, VNum y => (x =? y)%Z
  | VStr x, VStr y => String.eqb x y
  | VDate x, VDate y => (x =? y)%Z
  | _, _ => false
  end.

(** Modelled from the spec: the rows a filter lets through; [None]
    when its pattern is refused. *)
Definition holds (f : filter) : option (obj -> bool) :=
  match f with
  | FEq c v => Some (fun r => eq_value (get r c) v)
  | FILike c p =>
      ts ← compile (stars_to_percents p);
      Some (fun r =>
              match get r c with
              | VStr s => matches ts s
              | _ => false
              end)
  end.

(** All chained filters must hold (a conjunction). *)
Fixpoint where_ (fs : list filter) : option (obj -> bool) :=
  match fs with
  | [] => Some (fun _ => true)
  | f :: fs' =>
      h ← holds f;
      g ← where_ fs';
      Some (fun r => h r && g r)
  end.

(** *** Executing a request *)

Abbreviation tables := (gmap string (list obj)).

Definition pg_error (code message : string) : value :=
  VObj (<["code" := VStr code]> {[ "message" := VStr message ]}).

Definition not_single : value :=
  pg_error "PGRST116" "Cannot coerce the result to a single JSON object".
Definition bad_pattern : value :=
  pg_error "22025" "LIKE pattern must not end with escape character".

Definition ok (d : value) : response := Response d VNull.
Definition failed (e : value) : response := Response VNull e.

(** Modelled from the spec: result shaping.  The row limit applies
    first; [single()] "expects exactly one match" and reports an error
    for none and for several; without it the rows come as an array. *)
Definition shape (q : request) (rows : list obj) : response :=
  let rows := match row_limit q with
              | Some n => take n rows
              | None => rows
              end in
  if want_single q then
    match rows with
    | [r] => ok (VObj r)
    | _ => failed not_single
    end
  else ok (VArr (VObj <$> rows)).

Definition rows_of (db : tables) (t : string) : list obj :=
  default [] (db !! t).

(** A mutation answers with the written rows only when [.select()]
    was chained on it. *)
Definition reply (q : request) (written : list obj) : response :=
  if returning q then shape q written else ok VNull.

(** A mutation that is answered by an error leaves the table as it
    was; otherwise the table becomes [rows']. *)
Definition commit (db : tables) (q : request) (rows' : list obj)
    (r : response) : tables * response :=
  if truthy (error r) then (db, r) else (<[table q := rows']> db, r).

(** Modelled from the spec: what the client does with a request on the
    tables.  A select returns the rows its filters let through; an
    insert appends its rows; an update overwrites, in every row its
    filters let through, the properties named by the payload; a delete
    removes the rows its filters let through. *)
Definition exec (db : tables) (q : request) : tables * response :=
  let rows := rows_of db (table q) in
  match where_ (filters q) with
  | None => (db, failed bad_pattern)
  | Some keep =>
      match method q with
      | SELECT _ => (db, shape q (List.filter keep rows))
      | INSERT new => commit db q (rows ++ new)%list (reply q new)
      | UPDATE payload =>
          commit db q ((fun r => if keep r then payload ∪ r else r) <$> rows)
                 (reply q ((fun r => payload ∪ r) <$> List.filter keep rows))
      | DELETE =>
          commit db q (List.filter (fun r => negb (keep r)) rows)
                 (reply q (List.filter keep rows))
      end
  end.

(** *** Running a program *)

(** The world a call runs in: the tables, whether the backend is
    failing (and with which error object), and the wall clock as the
    sequence of its successive readings. *)
Record world : Type := World {
  db : tables;
  outage : option obj;
  clock : nat -> Z;
  reads : nat
}.

Inductive result (A : Type) : Type :=
| Returned (a : A)
| Raised (e : exn).
Arguments Returned {A} a.
Arguments Raised {A} e.

(** Modelled from the spec: one round trip.  A failing backend
    reports its error and does nothing else. *)
Definition respond (w : world) (q : request) : world * response :=
  match outage w with
  | Some e => (w, failed (VObj e))
  | None =>
      let '(db', r) := exec (db w) q in
      (World db' (outage w) (clock w) (reads w), r)
  end.

Fixpoint run {A} (p : prog A) (w : world) : world * result A :=
  match p with
  | Ret a => (w, Returned a)
  | Throw e => (w, Raised e)
  | Clock k =>
      run (k (clock w (reads w)))
          (World (db w) (outage w) (clock w) (S (reads w)))
  | Await q k =>
      let '(w', r) := respond w q in
      run (k r) w'
  end.

End Store.
Export Store.

(** ** The other exported functions of api.js *)

(** *** Writes that need nothing beyond the requests above *)

Definition addItem (item : obj) : prog value :=
  created_at ← new_Date;
  updated_at ← new_Date;
  r ← await (from "items"
             |> insert [ <["updated_at" := updated_at]>
                         (<["created_at" := created_at]> item) ]
             |> select_
             |> single);
  if truthy (error r) then throw (Thrown (error r)) else mret (data r).

Definition updateItem (item : obj) : prog value :=
  updated_at ← new_Date;
  r ← await (from "items"
             |> update (<["updated_at" := updated_at]> item)
             |> eq "id" (get item "id")
             |> select_
             |> single);
  if truthy (error r) then throw (Thrown (error r)) else mret (data r).

Definition deleteEmployee (id : value) : prog value :=
  r ← await (from "employees" |> delete |> eq "id" id);
  if truthy (error r) then throw (Thrown (error r))
  else mret (VObj {[ "success" := VBool true ]}).

Definition updateHistory (history : obj) : prog value :=
  updated_at ← new_Date;
  r ← await (from "history"
             |> update (<["updated_at" := updated_at]> history)
             |> eq "id" (get history "id")
             |> select_
             |> single);
  if truthy (error r) then throw (Thrown (error r)) else mret (data r).

Definition deleteHistory (id : value) : prog value :=
  r ← await (from "history" |> delete |> eq "id" id);
  if truthy (error r) then throw (Thrown (error r))
  else mret (VObj {[ "success" := VBool true ]}).

Definition updateTask (taskData : obj) : prog value :=
  updated_at ← new_Date;
  r ← await (from "tasks"
             |> update (<["updated_at" := updated_at]> taskData)
             |> eq "task_id" (get taskData "task_id")
             |> select_
             |> single);
  if truthy (error r) then throw (Thrown (error r)) else mret (data r).

(** *** Ordered reads and the upsert *)

Module Modifiers.

(** Two further parts of a builder chain, beside those of [request]:
    [.order(column, { ascending })] and the conflict column of
    [.upsert(rows, { onConflict })].  An upsert is an insert that names
    the column on which an existing row is merged instead. *)
Record xrequest : Type := XRequest {
  base : request;
  order_by : option (string * bool);
  on_conflict : option string
}.

Definition plain (q : request) : xrequest := XRequest q None None.

Definition order (column : string) (ascending : bool) (q : request)
    : xrequest :=
  XRequest q (Some (column, ascending)) None.

Definition upsert (rows : list obj) (onConflict : string) (t : string)
    : xrequest :=
  XRequest (start t (INSERT rows)) None (Some onConflict).

(** [.select()] and [.limit(n)] chained on an upsert. *)
Definition xselect_ (x : xrequest) : xrequest :=
  XRequest (select_ (base x)) (order_by x) (on_conflict x).
Definition xlimit (n : nat) (x : xrequest) : xrequest :=
  XRequest (limit n (base x)) (order_by x) (on_conflict x).

End Modifiers.
Export Modifiers.

(** Programs that await such a request; these functions read no
    clock. *)
Inductive qprog (A : Type) : Type :=
| QRet (a : A)
| QThrow (e : exn)
| QAwait (x : xrequest) (k : response -> qprog A).

Arguments QRet {A} a.
Arguments QThrow {A} e.
Arguments QAwait {A} x k.

Fixpoint qbind {A B} (p : qprog A) (f : A -> qprog B) : qprog B :=
  match p with
  | QRet a => f a
  | QThrow e => QThrow e
  | QAwait x k => QAwait x (fun r => qbind (k r) f)
  end.

#[global] Instance qprog_ret : MRet qprog := @QRet.
#[global] Instance qprog_bind : MBind qprog := fun A B f p => qbind p f.

Definition qawait (x : xrequest) : qprog response := QAwait x QRet.
Definition qthrow {A} (e : exn) : qprog A := QThrow e.

(** The request a program sends and how it goes on with the response. *)
Definition qsent {A} (p : qprog A) : option xrequest :=
  match p with
  | QAwait x _ => Some x
  | _ => None
  end.

Definition qanswer {A} (p : qprog A) (r : response) : qprog A :=
  match p with
  | QAwait _ k => k r
  | _ => p
  end.

Definition getItems : qprog value :=
  r ← qawait (from "items" |> select "*" |> order "created_at" false);
  if truthy (error r) then qthrow (Thrown (error r)) else mret (data r).

Definition getEmployees : qprog value :=
  r ← qawait (from "employees" |> select "*" |> order "created_at" false);
  if truthy (error r) then qthrow (Thrown (error r)) else mret (data r).

(** Optional chaining [params?.k]: [undefined] unless [params] is an
    object that has the property. *)
Definition opt_get (params : value) (k : string) : value :=
  match params with
  | VObj o => get o k
  | _ => VUndefined
  end.

Definition getHistory (params : value) : qprog value :=
  let query := from "history" |> select "*" in
  let query :=
    if truthy (opt_get params "itemId")
    then query |> eq "item_id" (opt_get params "itemId")
    else query in
  let query :=
    if truthy (opt_get params "employeeId")
    then query |> eq "employee_id" (opt_get params "employeeId")
    else query in
  r ← qawait (query |> order "created_at" false);
  if truthy (error r) then qthrow (Thrown (error r)) else mret (data r).

Definition getTasks (employeeId : value) : qprog value :=
  r ← qawait (from "tasks"
              |> select "*"
              |> eq "employee_id" employeeId
              |> order "created_at" false);
  if truthy (error r) then qthrow (Thrown (error r)) else mret (data r).

(** The error object of reading a property of [null] or [undefined]. *)
Definition TypeError : exn := Thrown (VObj {[ "name" := VStr "TypeError" ]}).

(** [data[0]]: raises on [null] and [undefined], reads the first
    element otherwise. *)
Definition index_0 (d : value) : qprog value :=
  match d with
  | VNull | VUndefined => qthrow TypeError
  | _ => mret (first d)
  end.

Definition updateLowStockThreshold (threshold : value) : qprog value :=
  r ← qawait (from "settings"
              |> upsert [ <["setting_value" := threshold]>
                          {[ "setting_key" := VStr "LOW_STOCK_THRESHOLD" ]} ]
                        "setting_key"
              |> xselect_
              |> xlimit 1);
  if truthy (error r) then qthrow (Thrown (error r)) else index_0 (data r).

(** ** Reference semantics of ordering and upsert *)

Module StoreX.

(** Modelled from the spec: the order of two column values ("ordered by
    [created_at] descending").  Numbers and dates compare by value,
    strings by their characters; [null] and a missing column count as
    larger than every value, so they come last ascending and first
    descending; values of different kinds are not told apart. *)
Definition compare_values (a b : value) : comparison :=
  match a, b with
  | VNum x, VNum y => (x ?= y)%Z
  | VDate x, VDate y => (x ?= y)%Z
  | VStr x, VStr y => String.compare x y
  | VBool x, VBool y => Bool.compare x y
  | (VNull | VUndefined), (VNull | VUndefined) => Eq
  | (VNull | VUndefined), _ => Gt
  | _, (VNull | VUndefined) => Lt
  | _, _ => Eq
  end.

(** [r1] may come before [r2]. *)
Definition before (column : string) (ascending : bool) (r1 r2 : obj) : bool :=
  match compare_values (get r1 column) (get r2 column) with
  | Eq => true
  | Lt => ascending
  | Gt => negb ascending
  end.

Fixpoint insert_row (le : obj -> obj -> bool) (r : obj) (l : list obj)
    : list obj :=
  match l with
  | [] => [r]
  | x :: l' => if le r x then r :: l else x :: insert_row le r l'
  end.

(** Modelled from the spec: ordering a result.  Rows that compare equal
    keep the order they have in the table. *)
Fixpoint sort_rows (le : obj -> obj -> bool) (l : list obj) : list obj :=
  match l with
  | [] => []
  | r :: l' => insert_row le r (sort_rows le l')
  end.

Definition ordered (o : option (string * bool)) (l : list obj) : list obj :=
  match o with
  | Some (column, ascending) => sort_rows (before column ascending) l
  | None => l
  end.

(** Stored row [r] has the key of the row [new]. *)
Definition same_key (key : string) (new r : obj) : bool :=
  eq_value (get r key) (get new key).

(** Modelled from the spec: "insert-or-update-on-conflict keyed by a
    designated unique field".  A new row whose key equals that of
    stored rows is merged into them, its properties overriding theirs;
    otherwise it is appended. *)
Definition upsert_row (key : string) (rows : list obj) (new : obj)
    : list obj :=
  if existsb (same_key key new) rows
  then (fun r => if same_key key new r then new ∪ r else r) <$> rows
  else (rows ++ [new])%list.

Definition upsert_rows (key : string) (rows new : list obj) : list obj :=
  foldl (upsert_row key) rows new.

(** Modelled from the spec: a request with its two further parts.  An
    ordered select sorts the rows its filters let through before they
    are shaped; an insert with a conflict column is an upsert and
    answers with the rows it wrote; everything else is the plain
    request. *)
Definition xexec (db : tables) (x : xrequest) : tables * response :=
  let q := base x in
  let rows := rows_of db (table q) in
  match where_ (filters q) with
  | None => (db, failed bad_pattern)
  | Some keep =>
      match method q, on_conflict x with
      | SELECT _, _ =>
          (db, shape q (ordered (order_by x) (List.filter keep rows)))
      | INSERT new, Some key =>
          let rows' := upsert_rows key rows new in
          commit db q rows'
                 (reply q (List.filter
                             (fun r => existsb (fun n => same_key key n r) new)
                             rows'))
      | _, _ => exec db q
      end
  end.

(** Modelled from the spec: one round trip with such a request; as
    [respond], a failing backend reports its error and does nothing
    else. *)
Definition xrespond (w : world) (x : xrequest) : world * response :=
  match outage w with
  | Some e => (w, failed (VObj e))
  | None =>
      let '(db', r) := xexec (db w) x in
      (World db' (outage w) (clock w) (reads w), r)
  end.

Fixpoint xrun {A} (p : qprog A) (w : world) : world * result A :=
  match p with
  | QRet a => (w, Returned a)
  | QThrow e => (w, Raised e)
  | QAwait x k =>
      let '(w', r) := xrespond w x in
      xrun (k r) w'
  end.

End StoreX.
Export StoreX.

(** * Vocabulary of the properties *)

(** The row of an insert request that carries exactly one row, and the
    payload of an update request. *)
Definition inserted_row (q : request) : option obj :=
  match method q with
  | INSERT [row] => Some row
  | _ => None
  end.

Definition updated_payload (q : request) : option obj :=
  match method q with
  | UPDATE payload => Some payload
  | _ => None
  end.

Definition LOGIN_FAILED : exn := Error "LOGIN_FAILED".

(** The employees that a login attempt matches in the store. *)
Definition login_matches (sha256_base64 : value -> string)
    (email : string) (password : value) (w : world) : list obj :=
  List.filter
    (fun row => eq_value (get row "email") (VStr (trim (toLowerCase email))) &&
                eq_value (get row "pin_hash")
                         (VStr (hashPin sha256_base64 password)))
    (rows_of (db w) "employees").

(** The row that [addEmployee] sends for [employee] holds no raw [pin]. *)
Definition sends_no_raw_pin (sha256_base64 : value -> string)
    (employee : obj) (clk : nat -> Z) : Prop :=
  ∀ q row, sent (addEmployee sha256_base64 employee) clk 0 = Some q ->
           inserted_row q = Some row ->
           row !! "pin" = None.

(** The digests stored in the [employees] table, row by row. *)
Definition stored_pin_hashes (w : world) : list value :=
  (fun row => get row "pin_hash") <$> rows_of (db w) "employees".

(** A call of [updateEmployee] leaves every stored digest as it was. *)
Definition pin_hash_untouched (sha256_base64 : value -> string)
    (employee : obj) (w : world) : Prop :=
  stored_pin_hashes (fst (run (updateEmployee sha256_base64 employee) w)) =
  stored_pin_hashes w.

Definition LOW_STOCK_THRESHOLD : value := VStr "LOW_STOCK_THRESHOLD".

Definition success : value := VObj {[ "success" := VBool true ]}.

(** The row that [addTask] builds from its input and two clock
    readings: [Date.now()] for the id, [new Date()] for the stamp. *)
Definition task_row (taskData : obj) (now created : Z) : obj :=
  <["created_at" := VDate created]>
    (<["task_id" := VStr ("TASK" ++ number_to_string now)]> taskData).

(** [q] is a prefix of [s], up to the case of letters. *)
Fixpoint prefix_ci (q s : string) : bool :=
  match q with
  | EmptyString => true
  | String c q' =>
      match s with
      | String d s' => Ascii.eqb (lower_char c) (lower_char d) && prefix_ci q' s'
      | EmptyString => false
      end
  end.

(** [q] occurs in [s] at some position, up to the case of letters. *)
Fixpoint contains_ci (q s : string) : bool :=
  prefix_ci q s ||
  match s with
  | EmptyString => false
  | String _ s' => contains_ci q s'
  end.

Definition name_contains (query : string) (row : obj) : bool :=
  match get row "name" with
  | VStr name => contains_ci query name
  | _ => false
  end.

(** [searchItems(query)] returns exactly the items whose name contains
    [query], case-insensitively. *)
Definition searchItems_returns_containing (query : string) (w : world) : Prop :=
  snd (run (searchItems query) w) =
  Returned (VArr (VObj <$> List.filter (name_contains query)
                                       (rows_of (db w) "items"))).

(** The characters that do not stand for themselves in a pattern. *)
Definition is_meta (c : ascii) : bool :=
  Ascii.eqb c "%" || Ascii.eqb c "_" || Ascii.eqb c backslash || Ascii.eqb c "*".

Fixpoint no_meta (q : string) : bool :=
  match q with
  | EmptyString => true
  | String c q' => negb (is_meta c) && no_meta q'
  end.

Fixpoint lits (q : string) : list token :=
  match q with
  | EmptyString => []
  | String c q' => Lit c :: lits q'
  end.

(** ** Concrete inputs *)

(** A stand-in digest for running the functions on concrete inputs. *)
Definition toy_digest (pin : value) : string :=
  match pin with
  | VStr s => "sha256:" ++ s
  | _ => "sha256:"
  end.

Definition wall_clock (n : nat) : Z := 1700000000000 + Z.of_nat n.

(** One employee with a stored digest. *)
Definition one_employee : world :=
  World {[ "employees" :=
             [ <["id" := VNum 1]> {[ "pin_hash" := VStr "stored" ]} ] ]}
        None wall_clock 0.

Definition named (name : string) : obj := {[ "name" := VStr name ]}.

Definition three_items : world :=
  World {[ "items" := [ named "Widget"; named "WIDGETRY"; named "Gadget" ] ]}
        None wall_clock 0.

Definition only_gadget : world :=
  World {[ "items" := [ named "Gadget" ] ]} None wall_clock 0.

(** Ann, registered with the PIN 1234. *)
Definition ann : obj :=
  <["email" := VStr "user@example.com"]>
    {[ "pin_hash" := VStr (toy_digest (VStr "1234")) ]}.

Definition staff : world :=
  World {[ "employees" := [ ann ] ]} None wall_clock 0.

(** The same staff while the backend is failing. *)
Definition staff_offline : world :=
  World {[ "employees" := [ ann ] ]}
        (Some {[ "message" := VStr "fetch failed" ]}) wall_clock 0.

(** ** Vocabulary for the other functions *)

(** The row that [addItem] builds from its input and two clock
    readings. *)
Definition item_row (item : obj) (created updated : Z) : obj :=
  <["updated_at" := VDate updated]> (<["created_at" := VDate created]> item).

(** A call that throws the error of the client as it is: for every
    response that carries one, and in every world whose backend is
    failing, where it also leaves the tables alone. *)
Definition passes_errors (p : prog value) : Prop :=
  (∀ clk n r, truthy (error r) = true ->
              answer p clk n r = Throw (Thrown (error r))) ∧
  (∀ w e, outage w = Some e ->
          snd (run p w) = Raised (Thrown (VObj e)) ∧
          db (fst (run p w)) = db w).

Definition qpasses_errors (p : qprog value) : Prop :=
  (∀ r, truthy (error r) = true -> qanswer p r = QThrow (Thrown (error r))) ∧
  (∀ w e, outage w = Some e ->
          snd (xrun p w) = Raised (Thrown (VObj e)) ∧
          db (fst (xrun p w)) = db w).

(** The world after one clock read. *)
Definition tick (w : world) : world :=
  World (db w) (outage w) (clock w) (S (reads w)).

(** The outcome of a call once its response [r] is in: thrown if the
    response carries an error, its [data] otherwise. *)
Definition settle (r : response) : result value :=
  if truthy (error r) then Raised (Thrown (error r)) else Returned (data r).

(** Row [r] is not addressed by the key [key] of column [c]. *)
Definition other_key (c : string) (key : value) (r : obj) : Prop :=
  eq_value (get r c) key = false.

(** Between [w] and [w'] nothing changed but rows of table [t] whose
    column [c] equals [key]: every other table and every other row of
    [t] is as it was, at the place it was. *)
Definition touches_only (t c : string) (key : value) (w w' : world) : Prop :=
  (∀ t', t' ≠ t -> rows_of (db w') t' = rows_of (db w) t') ∧
  List.length (rows_of (db w') t) = List.length (rows_of (db w) t) ∧
  (∀ i r, rows_of (db w) t !! i = Some r -> other_key c key r ->
          rows_of (db w') t !! i = Some r).

(** Between [w] and [w'] the rows of table [t] whose column [c] equals
    [key] were removed and nothing else changed. *)
Definition removed_keyed (t c : string) (key : value) (w w' : world) : Prop :=
  (∀ t', t' ≠ t -> rows_of (db w') t' = rows_of (db w) t') ∧
  rows_of (db w') t =
    List.filter (fun r => negb (eq_value (get r c) key)) (rows_of (db w) t).

(** The payload of [updateEmployee]. *)
Definition employee_payload (sha256_base64 : value -> string)
    (employee : obj) (updated : Z) : obj :=
  if truthy (get employee "pin")
  then <["pin_hash" := VStr (hashPin sha256_base64 (get employee "pin"))]>
       (<["updated_at" := VDate updated]> employee)
  else <["updated_at" := VDate updated]> employee.

(** Row [row'] is [old] with the properties of [input] written over it
    and [updated_at] set to the stamp [updated]: what [input] names it
    holds with the input's value, everything else as in [old]. *)
Definition merges_into (input : obj) (updated : Z) (old row' : obj) : Prop :=
  row' !! "updated_at" = Some (VDate updated) ∧
  (∀ k v, k ≠ "updated_at" -> input !! k = Some v -> row' !! k = Some v) ∧
  (∀ k, k ≠ "updated_at" -> input !! k = None -> row' !! k = old !! k).

(** The outcome [res] of an update call in [w], for every way in which
    column [c] of [input] addresses exactly one row [old] of table [t]:
    that row is replaced, in place, by the merge, which is returned. *)
Definition updates_addressed_row (t c : string) (input : obj) (w : world)
    (res : world * result value) : Prop :=
  ∀ pre old post,
    rows_of (db w) t = (pre ++ old :: post)%list ->
    eq_value (get old c) (get input c) = true ->
    Forall (other_key c (get input c)) pre ->
    Forall (other_key c (get input c)) post ->
    ∃ row', rows_of (db (fst res)) t = (pre ++ row' :: post)%list ∧
            snd res = Returned (VObj row') ∧
            merges_into input (clock w (reads w)) old row'.

(** The outcome [res] of an update call in [w] when column [c] of
    [input] addresses no row of table [t]: the error of [single()], and
    the tables as they were. *)
Definition fails_unaddressed (t c : string) (input : obj) (w : world)
    (res : world * result value) : Prop :=
  Forall (other_key c (get input c)) (rows_of (db w) t) ->
  snd res = Raised (Thrown not_single) ∧ db (fst res) = db w.

(** The world after a delete on [key] went through. *)
Definition without (t c : string) (key : value) (w : world) : world :=
  World (<[t := List.filter (fun r => negb (eq_value (get r c) key))
                            (rows_of (db w) t)]> (db w))
        None (clock w) (reads w).

(** The row that [addEmployee] builds from its input, the digest of its
    [pin] and two clock readings. *)
Definition employee_row (sha256_base64 : value -> string) (employee : obj)
    (created updated : Z) : obj :=
  <["updated_at" := VDate updated]>
    (<["created_at" := VDate created]>
     (<["pin_hash" := VStr (hashPin sha256_base64 (get employee "pin"))]>
      employee)).

(** The form in which [login] looks an email up. *)
Definition normalised (email : string) : string := trim (toLowerCase email).

(** A string with no white space in front. *)
Definition starts_clean (s : string) : Prop :=
  match s with
  | EmptyString => True
  | String c _ => is_space c = false
  end.

(** The [created_at] of a row that holds a date. *)
Definition dated (r : obj) : Prop := ∃ t, get r "created_at" = VDate t.

Definition stamp (r : obj) : Z :=
  match get r "created_at" with
  | VDate t => t
  | _ => 0
  end.

(** Row [a] is at least as new as row [b]. *)
Definition newer (a b : obj) : Prop := stamp b ≤ stamp a.

(** The history records that [getHistory(params)] asks for: an id that
    is truthy has to match, an id that is missing or falsy is not
    looked at. *)
Definition history_wanted (params : value) (r : obj) : bool :=
  (negb (truthy (opt_get params "itemId")) ||
   eq_value (get r "item_id") (opt_get params "itemId")) &&
  (negb (truthy (opt_get params "employeeId")) ||
   eq_value (get r "employee_id") (opt_get params "employeeId")).

(** The filters that [getHistory(params)] chains. *)
Definition history_filters (params : value) : list filter :=
  ((if truthy (opt_get params "itemId")
    then [FEq "item_id" (opt_get params "itemId")] else []) ++
   (if truthy (opt_get params "employeeId")
    then [FEq "employee_id" (opt_get params "employeeId")] else []))%list.

(** The row that [updateLowStockThreshold] upserts. *)
Definition setting_row (threshold : value) : obj :=
  <["setting_value" := threshold]>
    {[ "setting_key" := VStr "LOW_STOCK_THRESHOLD" ]}.

(** Row [r] of [settings] is the one of the low-stock threshold. *)
Definition is_threshold (r : obj) : bool :=
  eq_value (get r "setting_key") LOW_STOCK_THRESHOLD.

(** The threshold rows of the [settings] table. *)
Definition threshold_rows (w : world) : list obj :=
  List.filter is_threshold (rows_of (db w) "settings").

(** ** More concrete inputs *)

Definition widget : obj :=
  <["id" := VNum 1]> (<["stock" := VNum 5]> (named "Widget")).
Definition gadget : obj :=
  <["id" := VNum 2]> (<["stock" := VNum 7]> (named "Gadget")).

Definition shop : world :=
  World {[ "items" := [ widget; gadget ] ]} None wall_clock 0.

(** Bob, registered with the PIN 1111 and the id 7. *)
Definition bob : obj :=
  <["id" := VNum 7]>
    (<["email" := VStr "bob@example.com"]>
     {[ "pin_hash" := VStr (toy_digest (VStr "1111")) ]}).

Definition office : world :=
  World {[ "employees" := [ ann; bob ] ]} None wall_clock 0.

(** Two items stamped long before the wall clock starts. *)
Definition old_widget : obj := <["created_at" := VDate 1000]> widget.
Definition old_gadget : obj := <["created_at" := VDate 2000]> gadget.

Definition stamped_shop : world :=
  World {[ "items" := [ old_widget; old_gadget ] ]} None wall_clock 0.

(** One task, created at the first reading of the wall clock. *)
Definition one_task : world :=
  World {[ "tasks" :=
             [ <["employee_id" := VNum 7]>
                 {[ "task_id" := VStr "TASK1600000000000" ]} ] ]}
        None wall_clock 0.

(** A threshold of 5 among other settings. *)
Definition configured : world :=
  World {[ "settings" :=
             [ {[ "setting_key" := VStr "CURRENCY" ]};
               <["setting_value" := VNum 5]>
                 {[ "setting_key" := VStr "LOW_STOCK_THRESHOLD" ]} ] ]}
        None wall_clock 0.

(** * Properties *)

(** ** Values and strings *)

Example truthy_empty : truthy (VStr "") = false.
Proof. reflexivity. Qed.

Example toLowerCase_email : toLowerCase "User@Example.com" = "user@example.com".
Proof. reflexivity. Qed.

Example trim_email : trim "  user@example.com " = "user@example.com".
Proof. reflexivity. Qed.

Example number_to_string_ms :
  number_to_string 1700000000123 = "1700000000123" ∧
  number_to_string 0 = "0".
Proof. by vm_compute. Qed.

Lemma get_absent (o : obj) (k : string) : o !! k = None -> get o k = VUndefined.
Proof. unfold get. by intros ->. Qed.

Lemma get_present (o : obj) (k : string) (v : value) :
  o !! k = Some v -> get o k = v.
Proof. unfold get. by intros ->. Qed.

(** ** The store *)

Example ilike_wid :
  ilike_match "%wid%" "Widget" = Some true ∧
  ilike_match "%wid%" "WIDGETRY" = Some true ∧
  ilike_match "%wid%" "Gadget" = Some false ∧
  ilike_match "w_d*" "Widget" = Some true ∧
  ilike_match (String backslash "") "Widget" = None.
Proof. by vm_compute. Qed.

Lemma eq_value_VStr (v : value) (s : string) :
  eq_value v (VStr s) = true ↔ v = VStr s.
Proof.
  destruct v; simpl; try (split; [discriminate | intros; discriminate]).
  rewrite String.eqb_eq. split; [intros ->; done | by intros [= ->]].
Qed.

Lemma eq_value_VStr_false (v : value) (s : string) :
  v ≠ VStr s -> eq_value v (VStr s) = false.
Proof.
  intros Hne. destruct (eq_value v (VStr s)) eqn:E; [|reflexivity].
  by apply eq_value_VStr in E.
Qed.

Lemma filter_none {A} (f : A -> bool) (l : list A) :
  Forall (fun x => f x = false) l -> List.filter f l = [].
Proof.
  induction 1 as [|x l Hx _ IH]; [reflexivity|].
  simpl. by rewrite Hx.
Qed.

Lemma rows_of_insert (d : tables) (t : string) (rows : list obj) :
  rows_of (<[t := rows]> d) t = rows.
Proof. unfold rows_of. by rewrite lookup_insert_eq. Qed.

(** An update whose payload has no column [c] leaves column [c] of the
    table as it was, whichever rows it matches and however it is
    answered. *)
Lemma exec_update_frame (d : tables) (q : request) (payload : obj) (c : string) :
  method q = UPDATE payload ->
  payload !! c = None ->
  (fun row => get row c) <$> rows_of (fst (exec d q)) (table q) =
  (fun row => get row c) <$> rows_of d (table q).
Proof.
  intros Hm Hc. unfold exec.
  destruct (where_ (filters q)) as [keep|]; [|reflexivity].
  rewrite Hm. unfold commit.
  destruct (truthy (error _)); [reflexivity|].
  cbn [fst]. rewrite rows_of_insert, <- list_fmap_compose.
  apply list_fmap_ext. intros _ row _. cbn.
  destruct (keep row); [|reflexivity].
  unfold get. by rewrite lookup_union_r.
Qed.

(** A delete without [.select()] is answered without an error,
    whatever rows its filter matches. *)
Lemma exec_delete_ok (d : tables) (t c : string) (v : value) :
  snd (exec d (Request t DELETE [FEq c v] false None false)) = ok VNull.
Proof. reflexivity. Qed.

(** ** Functions that hash a PIN *)

Section Credentials.

Context (sha256_base64 : value -> string).

Local Abbreviation hashPin := (hashPin sha256_base64).
Local Abbreviation login := (login sha256_base64).
Local Abbreviation addEmployee := (addEmployee sha256_base64).
Local Abbreviation updateEmployee := (updateEmployee sha256_base64).

(** *** addEmployee *)

(** The request of [addEmployee]: one insert into [employees] of the
    input record extended by the digest and the two stamps. *)
Lemma addEmployee_sent (employee : obj) (clk : nat -> Z) (n : nat) :
  sent (addEmployee employee) clk n =
  Some (Request "employees"
          (INSERT [ <["updated_at" := VDate (clk (S n))]>
                    (<["created_at" := VDate (clk n)]>
                     (<["pin_hash" := VStr (hashPin (get employee "pin"))]>
                      employee)) ])
          [] true None true).
Proof. reflexivity. Qed.

(** Every property of the input other than the three written ones is
    forwarded unchanged, the raw [pin] among them. *)
Lemma addEmployee_forwards (employee : obj) (clk : nat -> Z) (k : string) :
  k ≠ "pin_hash" -> k ≠ "created_at" -> k ≠ "updated_at" ->
  ∃ q row, sent (addEmployee employee) clk 0 = Some q ∧
           inserted_row q = Some row ∧
           row !! k = employee !! k.
Proof.
  intros H1 H2 H3. eexists _, _. split; [apply addEmployee_sent|].
  split; [reflexivity|].
  by rewrite !lookup_insert_ne.
Qed.

(** For the input [{ name: "Ann", pin: "1234" }] the row that
    [addEmployee] hands to the insert holds the digest under [pin_hash]
    and also the raw ["1234"] under [pin]. *)
Lemma addEmployee_row_keeps_raw_pin (clk : nat -> Z) :
  let employee : obj := <["name" := VStr "Ann"]> {[ "pin" := VStr "1234" ]} in
  ∃ q row, sent (addEmployee employee) clk 0 = Some q ∧
           table q = "employees" ∧
           inserted_row q = Some row ∧
           row !! "pin_hash" = Some (VStr (hashPin (VStr "1234"))) ∧
           row !! "pin" = Some (VStr "1234").
Proof.
  intros employee. eexists _, _.
  split; [apply addEmployee_sent|].
  split; [reflexivity|]. split; [reflexivity|].
  split.
  - rewrite lookup_insert_ne by done. rewrite lookup_insert_ne by done.
    by rewrite lookup_insert_eq.
  - by vm_compute.
Qed.

(** C1 (as amended): for every input, the row that [addEmployee] sends
    to the insert on [employees] holds the digest of the input's [pin]
    under [pin_hash], and its [pin] property is that of the input,
    forwarded as given; so the row holds no raw [pin] exactly when the
    input has no [pin] property. *)
Theorem addEmployee_row_digest_and_forwarded_pin (employee : obj)
    (clk : nat -> Z) :
  ∃ q row, sent (addEmployee employee) clk 0 = Some q ∧
           table q = "employees" ∧
           inserted_row q = Some row ∧
           row !! "pin_hash" = Some (VStr (hashPin (get employee "pin"))) ∧
           row !! "pin" = employee !! "pin" ∧
           (row !! "pin" = None ↔ employee !! "pin" = None).
Proof.
  eexists _, _.
  split; [apply addEmployee_sent|].
  split; [reflexivity|]. split; [reflexivity|].
  assert (∀ row' : obj,
            <["updated_at" := VDate (clk 1%nat)]>
              (<["created_at" := VDate (clk 0%nat)]>
               (<["pin_hash" := VStr (hashPin (get employee "pin"))]> row'))
            !! "pin" = row' !! "pin") as Hpin
    by (intros row'; by rewrite !lookup_insert_ne).
  split_and!.
  - rewrite lookup_insert_ne by done. rewrite lookup_insert_ne by done.
    by rewrite lookup_insert_eq.
  - apply Hpin.
  - by rewrite Hpin.
Qed.

(** *** login *)

Lemma login_sent (email : string) (password : value) (clk : nat -> Z) (n : nat) :
  sent (login email password) clk n =
  Some (Request "employees" (SELECT "*")
          [ FEq "email" (VStr (trim (toLowerCase email)));
            FEq "pin_hash" (VStr (hashPin password)) ]
          false None true).
Proof. reflexivity. Qed.

Lemma login_answer (email : string) (password : value) (clk : nat -> Z) (n : nat)
    (r : response) :
  answer (login email password) clk n r =
  if truthy (error r) || negb (truthy (data r))
  then Throw LOGIN_FAILED
  else Ret (data r).
Proof. reflexivity. Qed.

(** The rows selected by the two chained filters of [login]. *)
Lemma login_where (email : string) (password : value) :
  ∃ keep, where_ [ FEq "email" (VStr (trim (toLowerCase email)));
                   FEq "pin_hash" (VStr (hashPin password)) ] = Some keep ∧
          ∀ row, keep row = true ↔
                 get row "email" = VStr (trim (toLowerCase email)) ∧
                 get row "pin_hash" = VStr (hashPin password).
Proof.
  eexists. split; [reflexivity|].
  intros row. simpl.
  rewrite !andb_true_iff, !eq_value_VStr. tauto.
Qed.

(** Outcome of [login] in a world: a failing backend and every match
    count other than one give the fixed error; the single match is
    returned. *)
Lemma run_login (email : string) (password : value) (w : world) :
  snd (run (login email password) w) =
  match outage w with
  | Some _ => Raised LOGIN_FAILED
  | None =>
      match login_matches sha256_base64 email password w with
      | [row] => Returned (VObj row)
      | _ => Raised LOGIN_FAILED
      end
  end.
Proof.
  unfold login_matches. cbn -[trim toLowerCase rows_of List.filter].
  unfold respond. destruct (outage w) as [e|]; [reflexivity|].
  cbn -[trim toLowerCase rows_of List.filter].
  erewrite (List.filter_ext _ (fun row => _ && _)).
  2:{ intros row. cbv beta. rewrite andb_true_r. reflexivity. }
  destruct (List.filter _ _) as [|row [|row' rest]]; reflexivity.
Qed.

Lemma login_matches_In (email : string) (password : value) (w : world) (row : obj) :
  In row (login_matches sha256_base64 email password w) ->
  In row (rows_of (db w) "employees") ∧
  get row "email" = VStr (trim (toLowerCase email)) ∧
  get row "pin_hash" = VStr (hashPin password).
Proof.
  unfold login_matches. rewrite List.filter_In, andb_true_iff.
  rewrite !eq_value_VStr. tauto.
Qed.

(** C2: [login] sends one select on the [employees] table that is
    filtered to the rows whose [email] equals the lowercased, trimmed
    input and whose [pin_hash] equals the digest of the password, and
    asks for a single row; a row it returns from the store is such a
    row of that table; the calls [login("User@Example.com", p)] and
    [login("user@example.com ", p)] are the same program, so they
    behave identically in every world. *)
Theorem login_query_normalises_email :
  (∀ email password clk,
     ∃ q keep,
       sent (login email password) clk 0 = Some q ∧
       table q = "employees" ∧ method q = SELECT "*" ∧ want_single q = true ∧
       where_ (filters q) = Some keep ∧
       ∀ row, keep row = true ↔
              get row "email" = VStr (trim (toLowerCase email)) ∧
              get row "pin_hash" = VStr (hashPin password)) ∧
  (∀ email password w row,
     snd (run (login email password) w) = Returned (VObj row) ->
     In row (rows_of (db w) "employees") ∧
     get row "email" = VStr (trim (toLowerCase email)) ∧
     get row "pin_hash" = VStr (hashPin password)) ∧
  (∀ p, login "User@Example.com" p = login "user@example.com " p) ∧
  (∀ p w, run (login "User@Example.com" p) w =
          run (login "user@example.com " p) w).
Proof.
  split_and!.
  - intros email password clk.
    destruct (login_where email password) as (keep & Hk & Hrow).
    exists (Request "employees" (SELECT "*")
              [ FEq "email" (VStr (trim (toLowerCase email)));
                FEq "pin_hash" (VStr (hashPin password)) ]
              false None true), keep.
    split; [apply login_sent|].
    do 3 (split; [reflexivity|]). split; [exact Hk | exact Hrow].
  - intros email password w row. rewrite run_login.
    destruct (outage w) as [e|]; [discriminate|].
    destruct (login_matches sha256_base64 email password w)
      as [|row0 [|row1 rest]] eqn:Hm; try discriminate.
    intros [= ->]. apply (login_matches_In email password w).
    rewrite Hm. by left.
  - intros p. reflexivity.
  - intros p w. reflexivity.
Qed.

(** C3: in every world, [login] raises exactly when no employee
    matches, more than one matches, or the backend reports an error;
    whatever it raises is the one fixed [Error("LOGIN_FAILED")], and
    for every response of the client it either raises that value or
    returns the row it was given. *)
Theorem login_fails_with_fixed_error (email : string) (password : value) :
  (∀ w, snd (run (login email password) w) = Raised LOGIN_FAILED ↔
        (List.length (login_matches sha256_base64 email password w) = 0%nat ∨
         (1 < List.length (login_matches sha256_base64 email password w))%nat ∨
         outage w ≠ None)) ∧
  (∀ w e, snd (run (login email password) w) = Raised e -> e = LOGIN_FAILED) ∧
  (∀ clk r, answer (login email password) clk 0 r =
            if truthy (error r) || negb (truthy (data r))
            then Throw LOGIN_FAILED else Ret (data r)).
Proof.
  split; [|split].
  - intros w. rewrite run_login.
    destruct (outage w) as [e|].
    + split; [intros _; right; right; discriminate | reflexivity].
    + destruct (login_matches sha256_base64 email password w)
        as [|row [|row' rest]]; simpl.
      * split; [intros _; by left | reflexivity].
      * split; [discriminate | intros [H|[H|H]]; [discriminate | lia | done]].
      * split; [intros _; right; left; lia | reflexivity].
  - intros w e. rewrite run_login.
    destruct (outage w) as [e'|]; [by intros [= <-]|].
    destruct (login_matches sha256_base64 email password w) as [|row [|row' rest]];
      first [by intros [= <-] | discriminate].
  - intros clk r. apply login_answer.
Qed.

(** *** updateEmployee *)

Lemma updateEmployee_sent (employee : obj) (clk : nat -> Z) (n : nat) :
  sent (updateEmployee employee) clk n =
  Some (Request "employees"
          (UPDATE (if truthy (get employee "pin")
                   then <["pin_hash" := VStr (hashPin (get employee "pin"))]>
                        (<["updated_at" := VDate (clk n)]> employee)
                   else <["updated_at" := VDate (clk n)]> employee))
          [ FEq "id" (get employee "id") ] true None true).
Proof. reflexivity. Qed.

(** C4 (as amended): when the input has no [pin] property, the payload
    of the update is the input with a fresh [updated_at] and no
    recomputed digest; if the input has no [pin_hash] property of its
    own either, the payload has none and every stored [pin_hash] is
    left as it was. *)
Theorem updateEmployee_without_pin (employee : obj) :
  employee !! "pin" = None ->
  (∀ clk, ∃ q payload,
     sent (updateEmployee employee) clk 0 = Some q ∧
     updated_payload q = Some payload ∧
     payload = <["updated_at" := VDate (clk 0%nat)]> employee ∧
     payload !! "pin_hash" = employee !! "pin_hash") ∧
  (employee !! "pin_hash" = None ->
   ∀ w, pin_hash_untouched sha256_base64 employee w).
Proof.
  intros Hpin. split.
  - intros clk. eexists _, _. split; [apply updateEmployee_sent|].
    cbn. rewrite (get_absent _ _ Hpin). cbn.
    split; [reflexivity|]. split; [reflexivity|].
    by rewrite lookup_insert_ne.
  - intros Hhash w.
    unfold pin_hash_untouched, stored_pin_hashes.
    cbn -[rows_of exec]. unfold respond; cbn -[rows_of exec].
    destruct (outage w) as [e|]; [reflexivity|].
    rewrite (get_absent _ _ Hpin). cbn -[rows_of exec].
    match goal with |- context [exec ?d ?q] =>
      pose proof (exec_update_frame d q _ "pin_hash" eq_refl) as Hf;
      destruct (exec d q) as [d' r] eqn:He
    end.
    cbn [fst table single select_ eq update start] in Hf.
    destruct (truthy (error r)); cbn -[rows_of]; apply Hf;
      by rewrite lookup_insert_ne.
Qed.

(** C5: when the input has a [pin] property whose value is falsy (the
    empty string, [0], [false], [null], [undefined]), the payload of
    the update is the input with a fresh [updated_at]: the falsy [pin]
    is in it, and [pin_hash] is not recomputed (the payload has one
    only if the input had, with the input's value). *)
Theorem updateEmployee_falsy_pin (employee : obj) (v : value) (clk : nat -> Z) :
  employee !! "pin" = Some v ->
  truthy v = false ->
  ∃ q payload,
    sent (updateEmployee employee) clk 0 = Some q ∧
    updated_payload q = Some payload ∧
    payload = <["updated_at" := VDate (clk 0%nat)]> employee ∧
    payload !! "pin" = Some v ∧
    payload !! "pin_hash" = employee !! "pin_hash".
Proof.
  intros Hpin Hv. eexists _, _.
  split; [apply updateEmployee_sent|].
  unfold updated_payload; cbn [method].
  rewrite (get_present _ _ _ Hpin), Hv.
  split; [reflexivity|]. split; [reflexivity|].
  by rewrite !lookup_insert_ne.
Qed.

(** The guard of [updateEmployee] the other way round: a truthy [pin]
    puts its digest in the payload. *)
Lemma updateEmployee_truthy_pin (employee : obj) (clk : nat -> Z) :
  truthy (get employee "pin") = true ->
  ∃ q payload,
    sent (updateEmployee employee) clk 0 = Some q ∧
    updated_payload q = Some payload ∧
    payload !! "pin_hash" = Some (VStr (hashPin (get employee "pin"))).
Proof.
  intros Hv. eexists _, _.
  split; [apply updateEmployee_sent|].
  unfold updated_payload; cbn [method]. rewrite Hv.
  split; [reflexivity|]. by rewrite lookup_insert_eq.
Qed.

End Credentials.

(** ** getLowStockThreshold *)

Lemma getLowStockThreshold_sent (clk : nat -> Z) (n : nat) :
  sent getLowStockThreshold clk n =
  Some (Request "settings" (SELECT "*")
          [ FEq "setting_key" LOW_STOCK_THRESHOLD ] false (Some 1%nat) false).
Proof. reflexivity. Qed.

Lemma getLowStockThreshold_answer (clk : nat -> Z) (n : nat) (r : response) :
  answer getLowStockThreshold clk n r =
  if truthy (error r) || negb (truthy (data r)) || length_is_0 (data r)
  then Ret VNull
  else Ret (first (data r)).
Proof. reflexivity. Qed.

(** Outcome of the read in a world where the key is not configured. *)
Lemma run_getLowStockThreshold_absent (w : world) :
  outage w = None ->
  Forall (fun row => get row "setting_key" ≠ LOW_STOCK_THRESHOLD)
         (rows_of (db w) "settings") ->
  snd (run getLowStockThreshold w) = Returned VNull.
Proof.
  intros Hup Habs. cbn -[rows_of List.filter]. unfold respond. rewrite Hup.
  cbn -[rows_of List.filter].
  rewrite filter_none; [reflexivity|].
  eapply Forall_impl; [exact Habs|].
  intros row Hrow. cbn beta. by rewrite eq_value_VStr_false.
Qed.

Lemma run_getLowStockThreshold_outage (w : world) :
  outage w ≠ None -> snd (run getLowStockThreshold w) = Returned VNull.
Proof.
  intros Hdown. cbn -[exec]. unfold respond.
  destruct (outage w) as [e|]; [reflexivity | done].
Qed.

(** C6: [getLowStockThreshold] never raises: whatever the client
    answers it returns a value, and that value is [null] whenever the
    answer carries an error and whenever it carries no row; run against
    the store, it returns [null] when no row is keyed
    ["LOW_STOCK_THRESHOLD"] and when the backend is failing. *)
Theorem getLowStockThreshold_null_not_error :
  (∀ clk r, ∃ v, answer getLowStockThreshold clk 0 r = Ret v) ∧
  (∀ clk r, truthy (error r) = true ->
            answer getLowStockThreshold clk 0 r = Ret VNull) ∧
  (∀ clk r, data r = VNull ∨ data r = VArr [] ->
            answer getLowStockThreshold clk 0 r = Ret VNull) ∧
  (∀ w, ∃ v, snd (run getLowStockThreshold w) = Returned v) ∧
  (∀ w, outage w ≠ None ∨
        Forall (fun row => get row "setting_key" ≠ LOW_STOCK_THRESHOLD)
               (rows_of (db w) "settings") ->
        snd (run getLowStockThreshold w) = Returned VNull).
Proof.
  split_and!.
  - intros clk r. rewrite getLowStockThreshold_answer.
    destruct (_ || _); eauto.
  - intros clk r He. rewrite getLowStockThreshold_answer. by rewrite He.
  - intros clk r Hd. rewrite getLowStockThreshold_answer.
    destruct Hd as [-> | ->]; cbn; by rewrite ?orb_true_r.
  - intros w. cbn -[exec]. destruct (respond w _) as [w' r].
    destruct (_ || _); eauto.
  - intros w [Hdown | Habs].
    + by apply run_getLowStockThreshold_outage.
    + destruct (outage w) as [e|] eqn:Hup.
      * apply run_getLowStockThreshold_outage. by rewrite Hup.
      * by apply run_getLowStockThreshold_absent.
Qed.

(** ** deleteItem and deleteTask *)

(** C9: [deleteTask] and [deleteItem] send one delete filtered on the
    key and nothing else (no read of the row beforehand), and return
    [{ success: true }] for every response without an error; run
    against the store while the backend is up they return it for every
    id, also an id that matches no row. *)
Theorem delete_succeeds_without_existence_check (id : value) :
  (∀ clk, sent (deleteTask id) clk 0 =
          Some (Request "tasks" DELETE [FEq "task_id" id] false None false)) ∧
  (∀ clk, sent (deleteItem id) clk 0 =
          Some (Request "items" DELETE [FEq "id" id] false None false)) ∧
  (∀ clk r, truthy (error r) = false ->
            answer (deleteTask id) clk 0 r = Ret success ∧
            answer (deleteItem id) clk 0 r = Ret success) ∧
  (∀ w, outage w = None ->
        snd (run (deleteTask id) w) = Returned success ∧
        snd (run (deleteItem id) w) = Returned success).
Proof.
  split_and!; try reflexivity.
  - intros clk r He. cbn. by rewrite He.
  - intros w Hup. cbn -[exec]. unfold respond. rewrite Hup.
    split.
    + pose proof (exec_delete_ok (db w) "tasks" "task_id" id) as Hok.
      cbn -[exec] in *. destruct (exec _ _) as [d' r]. cbn in Hok. by subst r.
    + pose proof (exec_delete_ok (db w) "items" "id" id) as Hok.
      cbn -[exec] in *. destruct (exec _ _) as [d' r]. cbn in Hok. by subst r.
Qed.

(** ** addTask *)

Lemma addTask_sent (taskData : obj) (clk : nat -> Z) (n : nat) :
  sent (addTask taskData) clk n =
  Some (Request "tasks" (INSERT [ task_row taskData (clk n) (clk (S n)) ])
          [] true None true).
Proof. reflexivity. Qed.

Lemma task_row_task_id (taskData : obj) (now created : Z) :
  task_row taskData now created !! "task_id" =
  Some (VStr ("TASK" ++ number_to_string now)).
Proof.
  unfold task_row. rewrite lookup_insert_ne by done. by rewrite lookup_insert_eq.
Qed.

Lemma task_row_created_at (taskData : obj) (now created : Z) :
  task_row taskData now created !! "created_at" = Some (VDate created).
Proof. unfold task_row. by rewrite lookup_insert_eq. Qed.

Lemma task_row_other (taskData : obj) (now created : Z) (k : string) :
  k ≠ "task_id" -> k ≠ "created_at" ->
  task_row taskData now created !! k = taskData !! k.
Proof. intros H1 H2. unfold task_row. by rewrite !lookup_insert_ne. Qed.

(** Running [addTask] while the backend is up: two clock reads, the row
    appended to [tasks], the row returned. *)
Lemma run_addTask (taskData : obj) (w : world) :
  outage w = None ->
  let row := task_row taskData (clock w (reads w)) (clock w (S (reads w))) in
  run (addTask taskData) w =
  (World (<["tasks" := (rows_of (db w) "tasks" ++ [row])%list]> (db w))
         None (clock w) (S (S (reads w))),
   Returned (VObj row)).
Proof.
  intros Hup row. cbn -[rows_of task_row number_to_string].
  unfold respond. cbn -[rows_of task_row number_to_string].
  rewrite Hup. reflexivity.
Qed.

(** C7: the row that [addTask] inserts into [tasks] is the input with
    [task_id] set to ["TASK"] followed by the decimal reading of the
    millisecond clock and [created_at] set to the current date; no
    [updated_at] is written (the row has one only if the input had).
    The id depends on the clock alone, so two calls that read the same
    millisecond get the same [task_id], and both rows are stored. *)
Theorem addTask_task_id_from_clock :
  (∀ taskData clk,
     ∃ q row, sent (addTask taskData) clk 0 = Some q ∧
              table q = "tasks" ∧
              inserted_row q = Some row ∧
              row !! "task_id" =
                Some (VStr ("TASK" ++ number_to_string (clk 0%nat))) ∧
              row !! "created_at" = Some (VDate (clk 1%nat)) ∧
              row !! "updated_at" = taskData !! "updated_at") ∧
  "TASK" ++ number_to_string 1700000000123 = "TASK1700000000123" ∧
  (∀ a b w,
     outage w = None ->
     clock w (reads w) = clock w (S (S (reads w))) ->
     ∃ row_a row_b,
       rows_of (db (fst (run (addTask b) (fst (run (addTask a) w))))) "tasks" =
         (rows_of (db w) "tasks" ++ [row_a; row_b])%list ∧
       row_a !! "task_id" = row_b !! "task_id").
Proof.
  split_and!.
  - intros taskData clk. eexists _, _.
    split; [apply addTask_sent|]. split; [reflexivity|]. split; [reflexivity|].
    rewrite task_row_task_id, task_row_created_at.
    by rewrite task_row_other.
  - by vm_compute.
  - intros a b w Hup Hsame.
    rewrite (run_addTask a w Hup). cbn [fst].
    rewrite run_addTask by reflexivity. cbn [fst db clock reads].
    eexists _, _. split.
    + rewrite !rows_of_insert. by rewrite <- app_assoc.
    + by rewrite !task_row_task_id, Hsame.
Qed.

(** C8: whatever the input record carries, the row that [addTask]
    sends, and that the store appends to [tasks] while the backend is
    up, has the generated id under [task_id] and the stamp of the call
    under [created_at]; [task_id] and [created_at] properties of the
    input are overridden. *)
Theorem addTask_generated_fields_override (taskData : obj) (w : world) :
  let task_id := VStr ("TASK" ++ number_to_string (clock w (reads w))) in
  let created_at := VDate (clock w (S (reads w))) in
  ∃ q row,
    sent (addTask taskData) (clock w) (reads w) = Some q ∧
    inserted_row q = Some row ∧
    row !! "task_id" = Some task_id ∧
    row !! "created_at" = Some created_at ∧
    (outage w = None ->
     rows_of (db (fst (run (addTask taskData) w))) "tasks" =
       (rows_of (db w) "tasks" ++ [row])%list ∧
     snd (run (addTask taskData) w) = Returned (VObj row)).
Proof.
  intros task_id created_at. eexists _, _.
  split; [apply addTask_sent|]. split; [reflexivity|].
  split; [apply task_row_task_id|]. split; [apply task_row_created_at|].
  intros Hup. rewrite (run_addTask taskData w Hup). cbn [fst snd db].
  by rewrite rows_of_insert.
Qed.

(** ** searchItems *)

(** *** Case-insensitive containment *)

Lemma prefix_ci_spec (q s : string) :
  prefix_ci q s = true ↔ ∃ post, toLowerCase s = toLowerCase q ++ post.
Proof.
  revert s. induction q as [|c q IH]; intros s; simpl.
  - split; [intros _; by exists (toLowerCase s) | done].
  - destruct s as [|d s]; simpl.
    + split; [discriminate | intros [post [=]]].
    + rewrite andb_true_iff, Ascii.eqb_eq, IH. split.
      * intros [-> [post ->]]. by exists post.
      * intros [post [= -> ->]]. eauto.
Qed.

Lemma contains_ci_spec (q s : string) :
  contains_ci q s = true ↔
  ∃ pre post, toLowerCase s = pre ++ toLowerCase q ++ post.
Proof.
  induction s as [|d s IH]; simpl; rewrite orb_true_iff, prefix_ci_spec.
  - split.
    + intros [[post H] | [=]]. by exists "", post.
    + intros ([|a pre] & post & H); [left; by exists post | discriminate].
  - rewrite IH. simpl. split.
    + intros [[post H] | (pre & post & H)].
      * by exists "", post.
      * exists (String (lower_char d) pre), post. simpl. by rewrite H.
    + intros ([|a pre] & post & H); simpl in H.
      * left. by exists post.
      * right. injection H as _ H. by exists pre, post.
Qed.

Example contains_wid :
  contains_ci "wid" "Widget" = true ∧
  contains_ci "wid" "WIDGETRY" = true ∧
  contains_ci "wid" "Gadget" = false.
Proof. by vm_compute. Qed.

Lemma is_meta_false (c : ascii) :
  is_meta c = false ->
  Ascii.eqb c "%" = false ∧ Ascii.eqb c "_" = false ∧
  Ascii.eqb c backslash = false ∧ Ascii.eqb c "*" = false.
Proof.
  unfold is_meta. rewrite !orb_false_iff. tauto.
Qed.

(** A query free of special characters, put between two [%], compiles
    to: anything, the query letter by letter, anything. *)
Lemma compile_wrapped (q : string) :
  no_meta q = true ->
  compile (stars_to_percents ("%" ++ q ++ "%")) =
  Some (Any :: (lits q ++ [Any])%list).
Proof.
  intros Hq.
  assert (compile (stars_to_percents (q ++ "%")) =
          Some (lits q ++ [Any])%list) as H.
  { induction q as [|c q IH]; [reflexivity|].
    simpl in Hq. apply andb_true_iff in Hq as [Hc Hq].
    apply negb_true_iff, is_meta_false in Hc as (H1 & H2 & H3 & H4).
    simpl. unfold star_to_percent. rewrite H4, H3, H1, H2.
    by rewrite (IH Hq). }
  change ("%" ++ q ++ "%") with (String "%" (q ++ "%")).
  cbn [stars_to_percents compile]. by rewrite H.
Qed.

Lemma matches_any (p : list token) (s : string) :
  matches (Any :: p) s =
  matches p s || match s with
                 | EmptyString => false
                 | String _ s' => matches (Any :: p) s'
                 end.
Proof. destruct s; reflexivity. Qed.

Lemma matches_only_any (s : string) : matches [Any] s = true.
Proof.
  induction s as [|d s IH]; [reflexivity|].
  rewrite matches_any, IH. apply orb_true_r.
Qed.

Lemma matches_lits_any (q s : string) :
  matches (lits q ++ [Any])%list s = prefix_ci q s.
Proof.
  revert s. induction q as [|c q IH]; intros s.
  - apply matches_only_any.
  - destruct s as [|d s]; [reflexivity|]. simpl. by rewrite IH.
Qed.

Lemma matches_wrapped (q s : string) :
  matches (Any :: (lits q ++ [Any])%list) s = contains_ci q s.
Proof.
  induction s as [|d s IH]; rewrite matches_any, matches_lits_any.
  - reflexivity.
  - by rewrite IH.
Qed.

Lemma searchItems_sent (query : string) (clk : nat -> Z) (n : nat) :
  sent (searchItems query) clk n =
  Some (Request "items" (SELECT "*") [ FILike "name" ("%" ++ query ++ "%") ]
          false None false).
Proof. reflexivity. Qed.

(** C10 (as amended): for every query that contains none of the
    pattern characters [%], [_], [*] and backslash, and while the
    backend is up, [searchItems] returns exactly the items whose [name]
    is a string containing the query as a substring, up to the case of
    letters. *)
Theorem searchItems_plain_query (query : string) (w : world) :
  no_meta query = true ->
  outage w = None ->
  searchItems_returns_containing query w.
Proof.
  intros Hq Hup. unfold searchItems_returns_containing.
  cbn -[rows_of List.filter compile stars_to_percents String.append].
  unfold respond. rewrite Hup. unfold exec.
  cbn -[rows_of List.filter compile stars_to_percents String.append].
  rewrite (compile_wrapped query Hq).
  cbn -[rows_of List.filter matches].
  erewrite (List.filter_ext _ (name_contains query)); [reflexivity|].
  intros row. unfold name_contains. rewrite andb_true_r.
  destruct (get row "name"); try reflexivity.
  apply matches_wrapped.
Qed.

(** * Concrete instances *)

(** C1 (as stated) fails: for the input [{ name: "Ann", pin: "1234" }]
    the row sent to the insert holds the raw ["1234"] under [pin], next
    to its digest under [pin_hash]. *)
Lemma addEmployee_raw_pin_counterexample :
  let employee : obj := <["name" := VStr "Ann"]> {[ "pin" := VStr "1234" ]} in
  (sent (addEmployee toy_digest employee) wall_clock 0 ≫= inserted_row)
    ≫= (.!! "pin") = Some (VStr "1234") ∧
  (sent (addEmployee toy_digest employee) wall_clock 0 ≫= inserted_row)
    ≫= (.!! "pin_hash") = Some (VStr "sha256:1234") ∧
  ¬ sends_no_raw_pin toy_digest employee wall_clock.
Proof.
  intros employee.
  split; [by vm_compute|]. split; [by vm_compute|].
  intros H.
  specialize (H _ _ (addEmployee_sent toy_digest employee wall_clock 0)
                eq_refl).
  vm_compute in H. discriminate H.
Qed.

(** An update of employee 1 that names no [pin] and no [pin_hash]
    leaves the stored digest alone. *)
Lemma updateEmployee_without_pin_witness :
  let employee : obj := <["id" := VNum 1]> {[ "name" := VStr "Ann" ]} in
  employee !! "pin" = None ∧
  employee !! "pin_hash" = None ∧
  pin_hash_untouched toy_digest employee one_employee.
Proof.
  intros employee.
  split; [reflexivity|]. split; [reflexivity|].
  apply (updateEmployee_without_pin toy_digest employee); reflexivity.
Defined.

(** C4 (as stated) fails: an update of employee 1 that names no [pin]
    but carries a [pin_hash] property sends that property in its
    payload, and the stored digest is overwritten. *)
Lemma updateEmployee_pin_hash_counterexample :
  let employee : obj := <["id" := VNum 1]> {[ "pin_hash" := VStr "forged" ]} in
  employee !! "pin" = None ∧
  (sent (updateEmployee toy_digest employee) wall_clock 0 ≫= updated_payload)
    ≫= (.!! "pin_hash") = Some (VStr "forged") ∧
  stored_pin_hashes one_employee = [VStr "stored"] ∧
  stored_pin_hashes (fst (run (updateEmployee toy_digest employee) one_employee))
    = [VStr "forged"] ∧
  ¬ pin_hash_untouched toy_digest employee one_employee.
Proof.
  intros employee.
  split; [reflexivity|]. split; [by vm_compute|].
  split; [reflexivity|]. split; [by vm_compute|].
  intros H. vm_compute in H. discriminate H.
Qed.

(** An update whose [pin] is the empty string. *)
Lemma updateEmployee_falsy_pin_witness :
  let employee : obj := <["id" := VNum 1]> {[ "pin" := VStr "" ]} in
  employee !! "pin" = Some (VStr "") ∧
  truthy (VStr "") = false ∧
  ∃ q payload,
    sent (updateEmployee toy_digest employee) wall_clock 0 = Some q ∧
    updated_payload q = Some payload ∧
    payload = <["updated_at" := VDate (wall_clock 0)]> employee ∧
    payload !! "pin" = Some (VStr "") ∧
    payload !! "pin_hash" = employee !! "pin_hash".
Proof.
  intros employee.
  split; [reflexivity|]. split; [reflexivity|].
  apply (updateEmployee_falsy_pin toy_digest employee (VStr "") wall_clock);
    reflexivity.
Defined.

(** [searchItems("wid")] over Widget, WIDGETRY and Gadget. *)
Lemma searchItems_plain_query_witness :
  no_meta "wid" = true ∧
  outage three_items = None ∧
  searchItems_returns_containing "wid" three_items ∧
  List.filter (name_contains "wid") (rows_of (db three_items) "items") =
    [ named "Widget"; named "WIDGETRY" ].
Proof.
  split; [reflexivity|]. split; [reflexivity|]. split.
  - apply (searchItems_plain_query "wid" three_items); reflexivity.
  - by vm_compute.
Defined.

(** C10 (as stated) fails: the query ["%"] is a wildcard of the pattern
    language, so [searchItems("%")] returns Gadget although its name
    does not contain a percent sign. *)
Lemma searchItems_percent_counterexample :
  outage only_gadget = None ∧
  name_contains "%" (named "Gadget") = false ∧
  snd (run (searchItems "%") only_gadget) =
    Returned (VArr [ VObj (named "Gadget") ]) ∧
  ¬ searchItems_returns_containing "%" only_gadget.
Proof.
  split; [reflexivity|]. split; [by vm_compute|]. split; [by vm_compute|].
  intros H. vm_compute in H. discriminate H.
Qed.

(** Logging in as Ann: the email is matched up to case and surrounding
    blanks; a wrong PIN and a failing backend give the same error. *)
Example login_ann :
  snd (run (login toy_digest "User@Example.com" (VStr "1234")) staff) =
    Returned (VObj ann) ∧
  snd (run (login toy_digest "user@example.com " (VStr "1234")) staff) =
    Returned (VObj ann) ∧
  snd (run (login toy_digest "user@example.com" (VStr "0000")) staff) =
    Raised LOGIN_FAILED ∧
  snd (run (login toy_digest "nobody@example.com" (VStr "1234")) staff) =
    Raised LOGIN_FAILED ∧
  snd (run (login toy_digest "user@example.com" (VStr "1234")) staff_offline) =
    Raised LOGIN_FAILED.
Proof. by vm_compute. Qed.

(** Deleting a task that does not exist, and reading a threshold that
    was never configured or cannot be read. *)
Example delete_and_threshold :
  snd (run (deleteTask (VStr "TASK123")) staff) = Returned success ∧
  snd (run (deleteItem (VNum 42)) three_items) = Returned success ∧
  snd (run getLowStockThreshold staff) = Returned VNull ∧
  snd (run getLowStockThreshold staff_offline) = Returned VNull.
Proof. by vm_compute. Qed.

(** A task record that brings its own [task_id] and [created_at]. *)
Example addTask_own_id :
  let taskData : obj :=
    <["task_id" := VStr "MINE"]> {[ "created_at" := VStr "yesterday" ]} in
  snd (run (addTask taskData) staff) =
  Returned (VObj (<["task_id" := VStr "TASK1700000000000"]>
                  {[ "created_at" := VDate 1700000000001 ]})).
Proof. by vm_compute. Qed.

(** * Properties of the other functions *)

(** ** The store, continued *)

Lemma rows_of_insert_ne (d : tables) (t t' : string) (rows : list obj) :
  t' ≠ t -> rows_of (<[t := rows]> d) t' = rows_of d t'.
Proof. intros Hne. unfold rows_of. by rewrite lookup_insert_ne. Qed.

Lemma where_eq (c : string) (v : value) :
  where_ [FEq c v] = Some (fun r => eq_value (get r c) v && true).
Proof. reflexivity. Qed.

(** What [commit] leaves in the tables: the new rows or the old ones. *)
Lemma commit_rows (d : tables) (q : request) (rows' : list obj) (r : response) :
  rows_of (fst (commit d q rows' r)) (table q) =
  if truthy (error r) then rows_of d (table q) else rows'.
Proof.
  unfold commit. destruct (truthy (error r)); cbn [fst]; [reflexivity|].
  apply rows_of_insert.
Qed.

Lemma commit_other (d : tables) (q : request) (rows' : list obj) (r : response)
    (t' : string) :
  t' ≠ table q -> rows_of (fst (commit d q rows' r)) t' = rows_of d t'.
Proof.
  intros Hne. unfold commit. destruct (truthy (error r)); cbn [fst];
    [reflexivity|]. by apply rows_of_insert_ne.
Qed.

(** A request touches no table but its own. *)
Lemma exec_other (d : tables) (q : request) (t' : string) :
  t' ≠ table q -> rows_of (fst (exec d q)) t' = rows_of d t'.
Proof.
  intros Hne. unfold exec.
  destruct (where_ (filters q)) as [keep|]; [|reflexivity].
  destruct (method q); [reflexivity | by apply commit_other ..].
Qed.

(** A select changes nothing. *)
Lemma exec_select (d : tables) (q : request) (columns : string) :
  method q = SELECT columns -> fst (exec d q) = d.
Proof.
  intros Hm. unfold exec.
  destruct (where_ (filters q)) as [keep|]; [|reflexivity].
  by rewrite Hm.
Qed.

(** An update keeps the number of rows and every row that its filter
    does not let through. *)
Lemma exec_update_touches (d : tables) (t c : string) (key : value)
    (payload : obj) (ret : bool) (lim : option nat) (one : bool)
    (i : nat) (r : obj) :
  let d' := fst (exec d (Request t (UPDATE payload) [FEq c key] ret lim one)) in
  List.length (rows_of d' t) = List.length (rows_of d t) ∧
  (rows_of d t !! i = Some r -> other_key c key r -> rows_of d' t !! i = Some r).
Proof.
  intros d'. subst d'. unfold exec. cbn [method filters table]. rewrite where_eq.
  match goal with |- context [commit d ?q ?rows' ?resp] =>
    pose proof (commit_rows d q rows' resp) as Hc;
    cbn [table] in Hc; rewrite Hc; clear Hc
  end.
  destruct (truthy (error _)); [done|].
  split; [by rewrite length_fmap|].
  intros Hi Hr. rewrite list_lookup_fmap, Hi. cbn.
  unfold other_key in Hr. by rewrite Hr.
Qed.

Lemma filter_all {A} (f : A -> bool) (l : list A) :
  Forall (fun x => f x = true) l -> List.filter f l = l.
Proof.
  induction 1 as [|x l Hx _ IH]; [reflexivity|].
  simpl. by rewrite Hx, IH.
Qed.

(** The rows [pre ++ old :: post] where the key addresses [old] alone. *)
Lemma filter_keyed_one (c : string) (key : value) (pre post : list obj)
    (old : obj) :
  eq_value (get old c) key = true ->
  Forall (other_key c key) pre -> Forall (other_key c key) post ->
  List.filter (fun r => eq_value (get r c) key && true)
              (pre ++ old :: post)%list
  = [old].
Proof.
  intros Hold Hpre Hpost. rewrite List.filter_app. cbn. rewrite Hold. cbn.
  rewrite !filter_none; [reflexivity | |].
  - eapply Forall_impl; [exact Hpost|]. intros r Hr. cbv beta.
    unfold other_key in Hr. by rewrite Hr.
  - eapply Forall_impl; [exact Hpre|]. intros r Hr. cbv beta.
    unfold other_key in Hr. by rewrite Hr.
Qed.

Lemma fmap_keyed_one (c : string) (key : value) (payload : obj)
    (pre post : list obj) (old : obj) :
  eq_value (get old c) key = true ->
  Forall (other_key c key) pre -> Forall (other_key c key) post ->
  (fun r => if eq_value (get r c) key && true then payload ∪ r else r)
    <$> (pre ++ old :: post)%list
  = (pre ++ (payload ∪ old) :: post)%list.
Proof.
  intros Hold Hpre Hpost. rewrite fmap_app. cbn. rewrite Hold. cbn.
  assert (∀ l, Forall (other_key c key) l ->
               (fun r => if eq_value (get r c) key && true
                         then payload ∪ r else r) <$> l = l) as Hid.
  { induction 1 as [|x l Hx _ IH]; [reflexivity|].
    cbn. unfold other_key in Hx. rewrite Hx. cbn. by rewrite IH. }
  by rewrite !Hid.
Qed.

(** An update with [.select().single()] whose key addresses one row
    merges the payload into that row and answers with the result. *)
Lemma exec_update_one (d : tables) (t c : string) (key : value)
    (payload : obj) (pre post : list obj) (old : obj) :
  rows_of d t = (pre ++ old :: post)%list ->
  eq_value (get old c) key = true ->
  Forall (other_key c key) pre -> Forall (other_key c key) post ->
  exec d (Request t (UPDATE payload) [FEq c key] true None true) =
  (<[t := (pre ++ (payload ∪ old) :: post)%list]> d, ok (VObj (payload ∪ old))).
Proof.
  intros Hrows Hold Hpre Hpost. unfold exec. cbn [method filters table]. rewrite where_eq, Hrows.
  rewrite filter_keyed_one, fmap_keyed_one by done.
  reflexivity.
Qed.

(** The same update when the key addresses no row: an error, and
    nothing is written. *)
Lemma exec_update_none (d : tables) (t c : string) (key : value)
    (payload : obj) :
  Forall (other_key c key) (rows_of d t) ->
  exec d (Request t (UPDATE payload) [FEq c key] true None true) =
  (d, failed not_single).
Proof.
  intros Hnone. unfold exec. cbn [method filters table]. rewrite where_eq.
  rewrite filter_none; [reflexivity|].
  eapply Forall_impl; [exact Hnone|]. intros r Hr. cbv beta.
  unfold other_key in Hr. by rewrite Hr.
Qed.

(** A delete on a key removes the rows with that key. *)
Lemma exec_delete (d : tables) (t c : string) (key : value) :
  exec d (Request t DELETE [FEq c key] false None false) =
  (<[t := List.filter (fun r => negb (eq_value (get r c) key)) (rows_of d t)]> d,
   ok VNull).
Proof.
  unfold exec. cbn [method filters table]. rewrite where_eq.
  unfold reply, commit. cbn.
  erewrite List.filter_ext; [reflexivity|].
  intros r. cbv beta. by rewrite andb_true_r.
Qed.

(** ** Errors of the backend *)

Ltac pass_errors :=
  split;
  [ intros ? ? r He; cbn; by rewrite He
  | intros w e Hw; cbn -[exec]; unfold respond; cbn -[exec];
    rewrite Hw; by cbn ].

Ltac qpass_errors :=
  split;
  [ intros r He; cbn; by rewrite He
  | intros w e Hw; cbn -[xexec]; unfold xrespond; cbn -[xexec];
    rewrite Hw; by cbn ].

(** X1: the functions on items throw the error of the client as it
    arrived, unmapped, whenever the response carries one (whatever its
    [data]); when the backend is failing the caller gets the backend's
    own error object and no table has changed. *)
Theorem item_calls_pass_errors :
  (∀ query, passes_errors (searchItems query)) ∧
  (∀ item, passes_errors (addItem item)) ∧
  (∀ item, passes_errors (updateItem item)) ∧
  (∀ id, passes_errors (deleteItem id)) ∧
  qpasses_errors getItems.
Proof.
  split_and!; try (intros ?; pass_errors); qpass_errors.
Qed.

(** X2: the functions on employees other than [login] throw the error
    of the client as it arrived, unmapped, whenever the response
    carries one; when the backend is failing the caller gets the
    backend's own error object and no table has changed. *)
Theorem employee_calls_pass_errors (sha256_base64 : value -> string) :
  qpasses_errors getEmployees ∧
  (∀ employee, passes_errors (addEmployee sha256_base64 employee)) ∧
  (∀ employee, passes_errors (updateEmployee sha256_base64 employee)) ∧
  (∀ id, passes_errors (deleteEmployee id)).
Proof.
  split_and!; try (intros ?; pass_errors); qpass_errors.
Qed.

(** X3: the functions on the history throw the error of the client as
    it arrived, unmapped, whenever the response carries one; when the
    backend is failing the caller gets the backend's own error object
    and no table has changed. *)
Theorem history_calls_pass_errors :
  (∀ params, qpasses_errors (getHistory params)) ∧
  (∀ history, passes_errors (updateHistory history)) ∧
  (∀ id, passes_errors (deleteHistory id)).
Proof.
  split_and!; try (intros ?; pass_errors); intros ?; qpass_errors.
Qed.

(** X4: the functions on tasks throw the error of the client as it
    arrived, unmapped, whenever the response carries one; when the
    backend is failing the caller gets the backend's own error object
    and no table has changed. *)
Theorem task_calls_pass_errors :
  (∀ taskData, passes_errors (addTask taskData)) ∧
  (∀ employeeId, qpasses_errors (getTasks employeeId)) ∧
  (∀ taskData, passes_errors (updateTask taskData)) ∧
  (∀ taskId, passes_errors (deleteTask taskId)).
Proof.
  split_and!; try (intros ?; pass_errors); intros ?; qpass_errors.
Qed.

(** ** addItem *)

Lemma addItem_sent (item : obj) (clk : nat -> Z) (n : nat) :
  sent (addItem item) clk n =
  Some (Request "items" (INSERT [ item_row item (clk n) (clk (S n)) ])
          [] true None true).
Proof. reflexivity. Qed.

Lemma run_addItem (item : obj) (w : world) :
  outage w = None ->
  let row := item_row item (clock w (reads w)) (clock w (S (reads w))) in
  run (addItem item) w =
  (World (<["items" := (rows_of (db w) "items" ++ [row])%list]> (db w))
         None (clock w) (S (S (reads w))),
   Returned (VObj row)).
Proof.
  intros Hup row. cbn -[rows_of item_row].
  unfold respond. cbn -[rows_of item_row].
  rewrite Hup. reflexivity.
Qed.

(** X5: while the backend is up, [addItem] appends one row to [items]
    and returns that same row.  The row agrees with the input on every
    property except [created_at] and [updated_at], which hold the two
    clock readings of the call, in that order, also when the input
    brought its own; no other table changes. *)
Theorem addItem_stores_stamped_input (item : obj) (w : world) :
  outage w = None ->
  ∃ row,
    run (addItem item) w =
      (World (<["items" := (rows_of (db w) "items" ++ [row])%list]> (db w))
             None (clock w) (S (S (reads w))),
       Returned (VObj row)) ∧
    row !! "created_at" = Some (VDate (clock w (reads w))) ∧
    row !! "updated_at" = Some (VDate (clock w (S (reads w)))) ∧
    (∀ k, k ≠ "created_at" -> k ≠ "updated_at" -> row !! k = item !! k) ∧
    (∀ t, t ≠ "items" ->
          rows_of (db (fst (run (addItem item) w))) t = rows_of (db w) t).
Proof.
  intros Hup. eexists. split; [apply (run_addItem item w Hup)|].
  unfold item_row. split_and!.
  - rewrite lookup_insert_ne by done. by rewrite lookup_insert_eq.
  - by rewrite lookup_insert_eq.
  - intros k H1 H2. by rewrite !lookup_insert_ne.
  - intros t Ht. rewrite (run_addItem item w Hup). cbn [fst db].
    by apply rows_of_insert_ne.
Qed.

(** ** The four updates *)

Lemma respond_up (w : world) (q : request) :
  outage w = None ->
  respond w q =
  (World (fst (exec (db w) q)) None (clock w) (reads w), snd (exec (db w) q)).
Proof.
  intros Hup. unfold respond. rewrite Hup. by destruct (exec (db w) q).
Qed.

Lemma respond_down (w : world) (q : request) (e : obj) :
  outage w = Some e -> respond w q = (w, failed (VObj e)).
Proof. intros Hdown. unfold respond. by rewrite Hdown. Qed.

(** What one round trip leaves in the tables. *)
Lemma respond_db (w : world) (q : request) :
  db (fst (respond w q)) = db w ∨ db (fst (respond w q)) = fst (exec (db w) q).
Proof.
  destruct (outage w) as [e|] eqn:Hw.
  - left. by rewrite (respond_down w q e Hw).
  - right. by rewrite (respond_up w q Hw).
Qed.

Lemma run_updateItem (item : obj) (w : world) :
  let res := respond (tick w)
               (Request "items"
                  (UPDATE (<["updated_at" := VDate (clock w (reads w))]> item))
                  [FEq "id" (get item "id")] true None true) in
  run (updateItem item) w = (fst res, settle (snd res)).
Proof.
  intros res. subst res. cbn -[respond]. unfold tick.
  destruct (respond _ _) as [w' r]. unfold settle. cbn.
  by destruct (truthy (error r)).
Qed.

Lemma run_updateHistory (history : obj) (w : world) :
  let res := respond (tick w)
               (Request "history"
                  (UPDATE (<["updated_at" := VDate (clock w (reads w))]> history))
                  [FEq "id" (get history "id")] true None true) in
  run (updateHistory history) w = (fst res, settle (snd res)).
Proof.
  intros res. subst res. cbn -[respond]. unfold tick.
  destruct (respond _ _) as [w' r]. unfold settle. cbn.
  by destruct (truthy (error r)).
Qed.

Lemma run_updateTask (taskData : obj) (w : world) :
  let res := respond (tick w)
               (Request "tasks"
                  (UPDATE (<["updated_at" := VDate (clock w (reads w))]> taskData))
                  [FEq "task_id" (get taskData "task_id")] true None true) in
  run (updateTask taskData) w = (fst res, settle (snd res)).
Proof.
  intros res. subst res. cbn -[respond]. unfold tick.
  destruct (respond _ _) as [w' r]. unfold settle. cbn.
  by destruct (truthy (error r)).
Qed.

Lemma run_updateEmployee (sha256_base64 : value -> string) (employee : obj)
    (w : world) :
  let res := respond (tick w)
               (Request "employees"
                  (UPDATE (employee_payload sha256_base64 employee
                                            (clock w (reads w))))
                  [FEq "id" (get employee "id")] true None true) in
  run (updateEmployee sha256_base64 employee) w = (fst res, settle (snd res)).
Proof.
  intros res. subst res. unfold employee_payload. cbn -[respond]. unfold tick.
  destruct (respond _ _) as [w' r]. unfold settle. cbn.
  by destruct (truthy (error r)).
Qed.

Lemma touches_only_update (t c : string) (key : value) (payload : obj)
    (w : world) :
  touches_only t c key w
    (fst (respond (tick w)
            (Request t (UPDATE payload) [FEq c key] true None true))).
Proof.
  unfold touches_only.
  destruct (respond_db (tick w)
              (Request t (UPDATE payload) [FEq c key] true None true))
    as [-> | ->]; cbn [tick db]; [done|].
  split_and!.
  - intros t' Hne. by apply exec_other.
  - by apply (exec_update_touches (db w) t c key payload true None true
                                  0 ∅).
  - intros i r. by apply exec_update_touches.
Qed.

(** X6: an update call changes nothing but rows of its own table whose
    key column equals the key of the input ([id], and [task_id] for
    [updateTask]): in every world, every other table and every row with
    another key is afterwards as it was, at its place, and the table
    has as many rows as before. *)
Theorem updates_touch_only_addressed_rows (sha256_base64 : value -> string)
    (w : world) :
  (∀ item,
     touches_only "items" "id" (get item "id") w
                  (fst (run (updateItem item) w))) ∧
  (∀ history,
     touches_only "history" "id" (get history "id") w
                  (fst (run (updateHistory history) w))) ∧
  (∀ taskData,
     touches_only "tasks" "task_id" (get taskData "task_id") w
                  (fst (run (updateTask taskData) w))) ∧
  (∀ employee,
     touches_only "employees" "id" (get employee "id") w
                  (fst (run (updateEmployee sha256_base64 employee) w))).
Proof.
  split_and!.
  - intros item. rewrite run_updateItem. apply touches_only_update.
  - intros history. rewrite run_updateHistory. apply touches_only_update.
  - intros taskData. rewrite run_updateTask. apply touches_only_update.
  - intros employee. rewrite run_updateEmployee. apply touches_only_update.
Qed.

Lemma merges_into_union (input old : obj) (updated : Z) :
  merges_into input updated old (<["updated_at" := VDate updated]> input ∪ old).
Proof.
  unfold merges_into. split_and!.
  - apply lookup_union_Some_l. by rewrite lookup_insert_eq.
  - intros k v Hk Hin. apply lookup_union_Some_l.
    by rewrite lookup_insert_ne.
  - intros k Hk Hin. apply lookup_union_r. by rewrite lookup_insert_ne.
Qed.

(** A keyed update that addresses one row, through a round trip. *)
Lemma respond_update_one (w : world) (t c : string) (key : value)
    (payload : obj) (pre post : list obj) (old : obj) :
  outage w = None ->
  rows_of (db w) t = (pre ++ old :: post)%list ->
  eq_value (get old c) key = true ->
  Forall (other_key c key) pre -> Forall (other_key c key) post ->
  let res := respond (tick w)
               (Request t (UPDATE payload) [FEq c key] true None true) in
  rows_of (db (fst res)) t = (pre ++ (payload ∪ old) :: post)%list ∧
  settle (snd res) = Returned (VObj (payload ∪ old)).
Proof.
  intros Hup Hrows Hold Hpre Hpost res. subst res.
  rewrite respond_up by done. cbn [tick db fst snd].
  rewrite (exec_update_one (db w) t c key payload pre post old) by done.
  cbn [fst snd db]. by rewrite rows_of_insert.
Qed.

Lemma respond_update_none (w : world) (t c : string) (key : value)
    (payload : obj) :
  outage w = None ->
  Forall (other_key c key) (rows_of (db w) t) ->
  let res := respond (tick w)
               (Request t (UPDATE payload) [FEq c key] true None true) in
  settle (snd res) = Raised (Thrown not_single) ∧ db (fst res) = db w.
Proof.
  intros Hup Hnone res. subst res.
  rewrite respond_up by done. cbn [tick db fst snd].
  by rewrite (exec_update_none (db w) t c key payload).
Qed.

(** X7: while the backend is up, [updateItem], [updateHistory] and
    [updateTask] called with a key that addresses exactly one row
    replace that row in place by the merge of the input over it and
    return the merged row: the properties named by the input take the
    input's values, [updated_at] is the reading of the clock, every
    other property of the stored row (its [created_at], for one) is
    kept. *)
Theorem update_merges_into_addressed_row (w : world) :
  outage w = None ->
  (∀ item,
     updates_addressed_row "items" "id" item w (run (updateItem item) w)) ∧
  (∀ history,
     updates_addressed_row "history" "id" history w
                           (run (updateHistory history) w)) ∧
  (∀ taskData,
     updates_addressed_row "tasks" "task_id" taskData w
                           (run (updateTask taskData) w)).
Proof.
  intros Hup. split_and!.
  - intros item pre old post Hrows Hold Hpre Hpost.
    rewrite run_updateItem. cbn [fst snd].
    destruct (respond_update_one w "items" "id" (get item "id")
                (<["updated_at" := VDate (clock w (reads w))]> item)
                pre post old Hup Hrows Hold Hpre Hpost) as [Hdb Hres].
    eexists. split; [exact Hdb|]. split; [exact Hres|].
    apply merges_into_union.
  - intros history pre old post Hrows Hold Hpre Hpost.
    rewrite run_updateHistory. cbn [fst snd].
    destruct (respond_update_one w "history" "id" (get history "id")
                (<["updated_at" := VDate (clock w (reads w))]> history)
                pre post old Hup Hrows Hold Hpre Hpost) as [Hdb Hres].
    eexists. split; [exact Hdb|]. split; [exact Hres|].
    apply merges_into_union.
  - intros taskData pre old post Hrows Hold Hpre Hpost.
    rewrite run_updateTask. cbn [fst snd].
    destruct (respond_update_one w "tasks" "task_id" (get taskData "task_id")
                (<["updated_at" := VDate (clock w (reads w))]> taskData)
                pre post old Hup Hrows Hold Hpre Hpost) as [Hdb Hres].
    eexists. split; [exact Hdb|]. split; [exact Hres|].
    apply merges_into_union.
Qed.

Lemma other_key_undefined (c : string) (r : obj) : other_key c VUndefined r.
Proof. unfold other_key. by destruct (get r c). Qed.

(** X8: while the backend is up, an update call whose key addresses no
    row raises the error of [single()] and leaves every table as it
    was; this is the outcome in particular when the input has no key
    property at all. *)
Theorem update_without_match_fails (sha256_base64 : value -> string)
    (w : world) :
  outage w = None ->
  (∀ item,
     fails_unaddressed "items" "id" item w (run (updateItem item) w)) ∧
  (∀ history,
     fails_unaddressed "history" "id" history w
                       (run (updateHistory history) w)) ∧
  (∀ taskData,
     fails_unaddressed "tasks" "task_id" taskData w
                       (run (updateTask taskData) w)) ∧
  (∀ employee,
     fails_unaddressed "employees" "id" employee w
                       (run (updateEmployee sha256_base64 employee) w)) ∧
  (∀ item, item !! "id" = None ->
           (∃ e, snd (run (updateItem item) w) = Raised e) ∧
           db (fst (run (updateItem item) w)) = db w).
Proof.
  intros Hup. split_and!.
  - intros item Hnone. rewrite run_updateItem. cbn [fst snd].
    by apply respond_update_none.
  - intros history Hnone. rewrite run_updateHistory. cbn [fst snd].
    by apply respond_update_none.
  - intros taskData Hnone. rewrite run_updateTask. cbn [fst snd].
    by apply respond_update_none.
  - intros employee Hnone. rewrite run_updateEmployee. cbn [fst snd].
    by apply respond_update_none.
  - intros item Hid. rewrite run_updateItem. cbn [fst snd].
    destruct (respond_update_none w "items" "id" (get item "id")
                (<["updated_at" := VDate (clock w (reads w))]> item) Hup)
      as [Hres Hdb]; [|by eauto].
    rewrite (get_absent _ _ Hid). apply Forall_forall. intros r _.
    apply other_key_undefined.
Qed.

(** ** The four deletes *)

Lemma respond_delete (w : world) (t c : string) (key : value) :
  outage w = None ->
  respond w (Request t DELETE [FEq c key] false None false) =
  (without t c key w, ok VNull).
Proof.
  intros Hup. rewrite respond_up by done. by rewrite exec_delete.
Qed.

Lemma run_deleteItem (id : value) (w : world) :
  outage w = None ->
  run (deleteItem id) w = (without "items" "id" id w, Returned success).
Proof.
  intros Hup. cbn -[respond]. unfold eq, delete, from, start.
  cbn -[respond]. by rewrite respond_delete.
Qed.

Lemma run_deleteEmployee (id : value) (w : world) :
  outage w = None ->
  run (deleteEmployee id) w = (without "employees" "id" id w, Returned success).
Proof.
  intros Hup. cbn -[respond]. unfold eq, delete, from, start.
  cbn -[respond]. by rewrite respond_delete.
Qed.

Lemma run_deleteHistory (id : value) (w : world) :
  outage w = None ->
  run (deleteHistory id) w = (without "history" "id" id w, Returned success).
Proof.
  intros Hup. cbn -[respond]. unfold eq, delete, from, start.
  cbn -[respond]. by rewrite respond_delete.
Qed.

Lemma run_deleteTask (taskId : value) (w : world) :
  outage w = None ->
  run (deleteTask taskId) w =
  (without "tasks" "task_id" taskId w, Returned success).
Proof.
  intros Hup. cbn -[respond]. unfold eq, delete, from, start.
  cbn -[respond]. by rewrite respond_delete.
Qed.

Lemma removed_keyed_without (t c : string) (key : value) (w : world) :
  removed_keyed t c key w (without t c key w).
Proof.
  unfold removed_keyed, without. cbn [db]. split.
  - intros t' Hne. by apply rows_of_insert_ne.
  - apply rows_of_insert.
Qed.

Lemma filter_twice {A} (f : A -> bool) (l : list A) :
  List.filter f (List.filter f l) = List.filter f l.
Proof.
  induction l as [|x l IH]; [reflexivity|].
  simpl. destruct (f x) eqn:Hx; [|exact IH].
  simpl. by rewrite Hx, IH.
Qed.

Lemma without_twice (t c : string) (key : value) (w : world) :
  without t c key (without t c key w) = without t c key w.
Proof.
  unfold without. cbn [db clock reads]. f_equal.
  rewrite rows_of_insert, filter_twice. apply insert_insert_eq.
Qed.

(** X9: while the backend is up, each delete call removes from its
    table exactly the rows whose key column equals the given key ([id],
    and [task_id] for [deleteTask]), keeps every other row in its order
    and every other table as it was, and returns [{ success: true }]. *)
Theorem delete_removes_addressed_rows (w : world) (key : value) :
  outage w = None ->
  (removed_keyed "items" "id" key w (fst (run (deleteItem key) w)) ∧
   snd (run (deleteItem key) w) = Returned success) ∧
  (removed_keyed "employees" "id" key w (fst (run (deleteEmployee key) w)) ∧
   snd (run (deleteEmployee key) w) = Returned success) ∧
  (removed_keyed "history" "id" key w (fst (run (deleteHistory key) w)) ∧
   snd (run (deleteHistory key) w) = Returned success) ∧
  (removed_keyed "tasks" "task_id" key w (fst (run (deleteTask key) w)) ∧
   snd (run (deleteTask key) w) = Returned success).
Proof.
  intros Hup.
  rewrite run_deleteItem, run_deleteEmployee, run_deleteHistory,
    run_deleteTask by done.
  cbn [fst snd]. split_and!; try reflexivity; apply removed_keyed_without.
Qed.

(** X10: the deletes are idempotent: while the backend is up, a second
    call with the same key returns [{ success: true }] again and leaves
    the world exactly as the first call left it. *)
Theorem delete_twice_is_delete_once (w : world) (key : value) :
  outage w = None ->
  run (deleteItem key) (fst (run (deleteItem key) w)) =
    run (deleteItem key) w ∧
  run (deleteEmployee key) (fst (run (deleteEmployee key) w)) =
    run (deleteEmployee key) w ∧
  run (deleteHistory key) (fst (run (deleteHistory key) w)) =
    run (deleteHistory key) w ∧
  run (deleteTask key) (fst (run (deleteTask key) w)) =
    run (deleteTask key) w.
Proof.
  intros Hup.
  rewrite (run_deleteItem key w), (run_deleteEmployee key w),
    (run_deleteHistory key w), (run_deleteTask key w) by done.
  cbn [fst].
  rewrite run_deleteItem, run_deleteEmployee, run_deleteHistory,
    run_deleteTask by reflexivity.
  by rewrite !without_twice.
Qed.

(** ** Emails as [login] looks them up *)

Lemma lower_char_idem (c : ascii) : lower_char (lower_char c) = lower_char c.
Proof. by destruct c as [[] [] [] [] [] [] [] []]. Qed.

Lemma is_space_lower_char (c : ascii) : is_space (lower_char c) = is_space c.
Proof. by destruct c as [[] [] [] [] [] [] [] []]. Qed.

Lemma toLowerCase_idem (s : string) :
  toLowerCase (toLowerCase s) = toLowerCase s.
Proof.
  induction s as [|c s IH]; [reflexivity|].
  simpl. by rewrite lower_char_idem, IH.
Qed.

Lemma trimStart_toLowerCase (s : string) :
  trimStart (toLowerCase s) = toLowerCase (trimStart s).
Proof.
  induction s as [|c s IH]; [reflexivity|].
  simpl. rewrite is_space_lower_char. by destruct (is_space c).
Qed.

Lemma trimEnd_toLowerCase (s : string) :
  trimEnd (toLowerCase s) = toLowerCase (trimEnd s).
Proof.
  induction s as [|c s IH]; [reflexivity|].
  simpl. rewrite IH, is_space_lower_char.
  destruct (trimEnd s); simpl; [by destruct (is_space c) | reflexivity].
Qed.

Lemma trimEnd_idem (s : string) : trimEnd (trimEnd s) = trimEnd s.
Proof.
  induction s as [|c s IH]; [reflexivity|].
  simpl. destruct (trimEnd s) as [|d t] eqn:Ht.
  - destruct (is_space c) eqn:Hc; [reflexivity|]. simpl. by rewrite Hc.
  - change (trimEnd (String c (String d t))) with
      (match trimEnd (String d t) with
       | EmptyString => if is_space c then EmptyString else String c EmptyString
       | u => String c u
       end).
    by rewrite IH.
Qed.

Lemma trimStart_clean (s : string) : starts_clean (trimStart s).
Proof.
  induction s as [|c s IH]; [exact I|].
  simpl. by destruct (is_space c) eqn:Hc.
Qed.

Lemma trimEnd_clean (s : string) : starts_clean s -> starts_clean (trimEnd s).
Proof.
  destruct s as [|c s]; [done|]. simpl. intros Hc.
  destruct (trimEnd s); simpl; [by rewrite Hc | done].
Qed.

Lemma trimStart_of_clean (s : string) : starts_clean s -> trimStart s = s.
Proof. destruct s as [|c s]; [done|]. simpl. by intros ->. Qed.

Lemma trim_idem (s : string) : trim (trim s) = trim s.
Proof.
  unfold trim.
  rewrite (trimStart_of_clean (trimEnd (trimStart s))).
  - apply trimEnd_idem.
  - apply trimEnd_clean, trimStart_clean.
Qed.

Lemma normalised_idem (email : string) :
  normalised (normalised email) = normalised email.
Proof.
  unfold normalised, trim.
  rewrite <- trimEnd_toLowerCase, <- trimStart_toLowerCase, toLowerCase_idem.
  apply trim_idem.
Qed.

(** X11: [login] can only ever return an employee whose stored [email]
    is a string that is already lowercased and trimmed: the looked-up
    form of an email is a fixed point of the normalisation, and the
    stored value has to equal it.  A row stored with capitals or
    surrounding blanks in its email is returned by no login. *)
Theorem login_returns_normalised_emails (sha256_base64 : value -> string)
    (email : string) (password : value) (w : world) (row : obj) :
  snd (run (login sha256_base64 email password) w) = Returned (VObj row) ->
  ∃ stored, get row "email" = VStr stored ∧
            trim (toLowerCase stored) = stored ∧
            stored = trim (toLowerCase email).
Proof.
  rewrite run_login. destruct (outage w) as [e|]; [discriminate|].
  destruct (login_matches sha256_base64 email password w)
    as [|row0 [|row1 rest]] eqn:Hm; try discriminate.
  intros [= ->].
  destruct (login_matches_In sha256_base64 email password w row)
    as (_ & Hemail & _); [rewrite Hm; by left|].
  exists (trim (toLowerCase email)). split; [exact Hemail|].
  split; [apply normalised_idem | reflexivity].
Qed.

(** ** Registering an employee, then logging in *)

Lemma run_addEmployee (sha256_base64 : value -> string) (employee : obj)
    (w : world) :
  outage w = None ->
  let row := employee_row sha256_base64 employee
               (clock w (reads w)) (clock w (S (reads w))) in
  run (addEmployee sha256_base64 employee) w =
  (World (<["employees" := (rows_of (db w) "employees" ++ [row])%list]> (db w))
         None (clock w) (S (S (reads w))),
   Returned (VObj row)).
Proof.
  intros Hup row. cbn -[rows_of employee_row].
  unfold respond. cbn -[rows_of employee_row].
  rewrite Hup. reflexivity.
Qed.

Lemma employee_row_email (sha256_base64 : value -> string) (employee : obj)
    (created updated : Z) :
  get (employee_row sha256_base64 employee created updated) "email" =
  get employee "email".
Proof. unfold employee_row, get. by rewrite !lookup_insert_ne. Qed.

Lemma employee_row_pin_hash (sha256_base64 : value -> string) (employee : obj)
    (created updated : Z) :
  get (employee_row sha256_base64 employee created updated) "pin_hash" =
  VStr (hashPin sha256_base64 (get employee "pin")).
Proof.
  unfold employee_row. unfold get at 1.
  rewrite !lookup_insert_ne by done. by rewrite lookup_insert_eq.
Qed.

Lemma eq_value_VStr_refl (s : string) : eq_value (VStr s) (VStr s) = true.
Proof. by apply eq_value_VStr. Qed.

(** X12: registering and logging in compose.  While the backend is up,
    if the [email] of the new employee is stored in the form in which
    [login] looks it up, and no employee matched that email and PIN
    before, then [login] with that email (in any case, with blanks
    around it) and the PIN given to [addEmployee] returns the very row
    that [addEmployee] returned. *)
Theorem addEmployee_then_login (sha256_base64 : value -> string)
    (employee : obj) (email : string) (w : world) :
  outage w = None ->
  get employee "email" = VStr (trim (toLowerCase email)) ->
  login_matches sha256_base64 email (get employee "pin") w = [] ->
  ∃ row,
    snd (run (addEmployee sha256_base64 employee) w) = Returned (VObj row) ∧
    snd (run (login sha256_base64 email (get employee "pin"))
             (fst (run (addEmployee sha256_base64 employee) w)))
      = Returned (VObj row).
Proof.
  intros Hup Hemail Hfresh. eexists.
  rewrite (run_addEmployee sha256_base64 employee w Hup). cbn [fst snd].
  split; [reflexivity|].
  rewrite run_login. cbn [outage].
  unfold login_matches in *. cbn [db]. rewrite rows_of_insert.
  rewrite List.filter_app, Hfresh. cbn [List.filter app].
  rewrite employee_row_email, employee_row_pin_hash, Hemail.
  by rewrite !eq_value_VStr_refl.
Qed.

(** ** Creating a task, then deleting it *)

(** X13: creating and deleting a task compose.  While the backend is
    up and no stored task has the id that [addTask] is about to
    generate, [deleteTask] with the [task_id] of the created task
    returns [{ success: true }] and leaves the [tasks] table with the
    rows it had before the task was added. *)
Theorem addTask_then_deleteTask (taskData : obj) (w : world) :
  outage w = None ->
  let task_id := VStr ("TASK" ++ number_to_string (clock w (reads w))) in
  Forall (other_key "task_id" task_id) (rows_of (db w) "tasks") ->
  let w1 := fst (run (addTask taskData) w) in
  (∃ row, snd (run (addTask taskData) w) = Returned (VObj row) ∧
          get row "task_id" = task_id) ∧
  snd (run (deleteTask task_id) w1) = Returned success ∧
  rows_of (db (fst (run (deleteTask task_id) w1))) "tasks" =
    rows_of (db w) "tasks".
Proof.
  intros Hup task_id Hfresh w1. subst w1.
  rewrite (run_addTask taskData w Hup). cbn [fst snd].
  split.
  { eexists. split; [reflexivity|]. apply get_present, task_row_task_id. }
  rewrite run_deleteTask by reflexivity. cbn [fst snd].
  split; [reflexivity|].
  unfold without. cbn [db]. rewrite !rows_of_insert.
  rewrite List.filter_app. cbn [List.filter].
  rewrite (get_present _ _ _ (task_row_task_id taskData _ _)).
  subst task_id. rewrite eq_value_VStr_refl. cbn [negb].
  rewrite filter_all; [by rewrite app_nil_r|].
  eapply Forall_impl; [exact Hfresh|]. intros r Hr. cbv beta.
  unfold other_key in Hr. by rewrite Hr.
Qed.

(** ** Reads *)

Lemma respond_select (w : world) (q : request) (columns : string) :
  method q = SELECT columns -> db (fst (respond w q)) = db w.
Proof.
  intros Hm. destruct (respond_db w q) as [-> | ->]; [reflexivity|].
  by apply (exec_select _ _ columns).
Qed.

Lemma xexec_select (d : tables) (x : xrequest) (columns : string) :
  method (base x) = SELECT columns -> fst (xexec d x) = d.
Proof.
  intros Hm. unfold xexec.
  destruct (where_ (filters (base x))) as [keep|]; [|reflexivity].
  by rewrite Hm.
Qed.

Lemma xrespond_up (w : world) (x : xrequest) :
  outage w = None ->
  xrespond w x =
  (World (fst (xexec (db w) x)) None (clock w) (reads w),
   snd (xexec (db w) x)).
Proof.
  intros Hup. unfold xrespond. rewrite Hup. by destruct (xexec (db w) x).
Qed.

Lemma xrespond_select (w : world) (x : xrequest) (columns : string) :
  method (base x) = SELECT columns -> db (fst (xrespond w x)) = db w.
Proof.
  intros Hm. unfold xrespond. destruct (outage w) as [e|]; [reflexivity|].
  pose proof (xexec_select (db w) x columns Hm) as Hd.
  destruct (xexec (db w) x) as [d' r]. exact Hd.
Qed.

Ltac after_response :=
  repeat match goal with
         | |- context [if ?b then _ else _] => destruct b
         end; cbn.

Ltac select_only :=
  cbn -[respond];
  match goal with |- context [respond ?w ?q] =>
    pose proof (respond_select w q "*" eq_refl) as Hd;
    destruct (respond w q) as [w' r]
  end;
  by after_response.

Ltac xselect_only :=
  cbn -[xrespond];
  match goal with |- context [xrespond ?w ?x] =>
    pose proof (xrespond_select w x "*" eq_refl) as Hd;
    destruct (xrespond w x) as [w' r]
  end;
  by after_response.

(** X14: [login], [searchItems] and [getLowStockThreshold] write
    nothing: in every world, whatever they return or raise, every table
    is afterwards as it was. *)
Theorem lookups_leave_tables_alone (sha256_base64 : value -> string)
    (w : world) :
  (∀ email password,
     db (fst (run (login sha256_base64 email password) w)) = db w) ∧
  (∀ query, db (fst (run (searchItems query) w)) = db w) ∧
  db (fst (run getLowStockThreshold w)) = db w.
Proof.
  split_and!; [intros email password | intros query |]; select_only.
Qed.

(** X15: the four listing functions write nothing: in every world,
    whatever they return or raise, every table is afterwards as it
    was. *)
Theorem listings_leave_tables_alone (w : world) :
  db (fst (xrun getItems w)) = db w ∧
  db (fst (xrun getEmployees w)) = db w ∧
  (∀ params, db (fst (xrun (getHistory params) w)) = db w) ∧
  (∀ employeeId, db (fst (xrun (getTasks employeeId) w)) = db w).
Proof.
  split_and!; [xselect_only | xselect_only | | intros ?; xselect_only].
  intros params. cbn -[xrespond].
  match goal with |- context [xrespond w ?x] =>
    assert (method (base x) = SELECT "*") as Hm
      by (by destruct (truthy (opt_get params "itemId")),
                      (truthy (opt_get params "employeeId")));
    pose proof (xrespond_select w x "*" Hm) as Hd;
    destruct (xrespond w x) as [w' r]
  end.
  by after_response.
Qed.

(** ** Ordered reads *)

Lemma insert_row_perm (le : obj -> obj -> bool) (r : obj) (l : list obj) :
  insert_row le r l ≡ₚ r :: l.
Proof.
  induction l as [|x l IH]; [reflexivity|].
  simpl. destruct (le r x); [reflexivity|].
  rewrite IH. apply Permutation_swap.
Qed.

Lemma sort_rows_perm (le : obj -> obj -> bool) (l : list obj) :
  sort_rows le l ≡ₚ l.
Proof.
  induction l as [|r l IH]; [reflexivity|].
  simpl. by rewrite insert_row_perm, IH.
Qed.

(** On dated rows, descending order on [created_at] is [newer]. *)
Lemma before_dated (a b : obj) :
  dated a -> dated b ->
  before "created_at" false a b = true ↔ newer a b.
Proof.
  intros [ta Ha] [tb Hb]. unfold before, newer, stamp. rewrite Ha, Hb.
  cbn. destruct (Z.compare_spec ta tb); cbn; split; try done; lia.
Qed.

Lemma insert_row_sorted (r : obj) (l : list obj) :
  dated r -> Forall dated l -> StronglySorted newer l ->
  StronglySorted newer (insert_row (before "created_at" false) r l).
Proof.
  intros Hr Hl Hs. induction Hs as [|x l Hs IH Hx]; simpl.
  - by repeat constructor.
  - apply Forall_cons in Hl as [Hdx Hl].
    destruct (before "created_at" false r x) eqn:Hle.
    + apply before_dated in Hle; [|done..].
      constructor; [by constructor|].
      constructor; [exact Hle|].
      eapply Forall_impl; [exact Hx|]. intros y Hy. cbv beta.
      unfold newer in *. lia.
    + assert (newer x r) as Hxr.
      { destruct (Z.le_gt_cases (stamp r) (stamp x)) as [H|H]; [exact H|].
        assert (newer r x) as Hn by (unfold newer; lia).
        apply before_dated in Hn; [congruence | done..]. }
      constructor; [by apply IH|].
      rewrite insert_row_perm. by constructor.
Qed.

Lemma sort_rows_sorted (l : list obj) :
  Forall dated l ->
  StronglySorted newer (sort_rows (before "created_at" false) l).
Proof.
  induction 1 as [|r l Hr Hl IH]; simpl; [constructor|].
  apply insert_row_sorted; [done | | done].
  by rewrite sort_rows_perm.
Qed.

Lemma Forall_filter {A} (P : A -> Prop) (f : A -> bool) (l : list A) :
  Forall P l -> Forall P (List.filter f l).
Proof.
  induction 1 as [|x l Hx _ IH]; simpl; [constructor|].
  destruct (f x); [by constructor | done].
Qed.

(** The outcome of an ordered select without limit, backend up. *)
Lemma xrespond_ordered_select (w : world) (t columns column : string)
    (fs : list filter) (keep : obj -> bool) (asc : bool) :
  outage w = None ->
  where_ fs = Some keep ->
  snd (xrespond w (order column asc (Request t (SELECT columns) fs
                                             false None false))) =
  ok (VArr (VObj <$> sort_rows (before column asc)
                               (List.filter keep (rows_of (db w) t)))).
Proof.
  intros Hup Hk. rewrite xrespond_up by done. cbn [snd].
  unfold xexec. cbn [base order filters method table order_by].
  by rewrite Hk.
Qed.

Lemma xrun_getItems (w : world) :
  outage w = None ->
  snd (xrun getItems w) =
  Returned (VArr (VObj <$> sort_rows (before "created_at" false)
                                     (rows_of (db w) "items"))).
Proof.
  intros Hup. cbn -[xrespond].
  pose proof (xrespond_ordered_select w "items" "*" "created_at" []
                (fun _ => true) false Hup eq_refl) as Hr.
  unfold select, from, start in *.
  destruct (xrespond w _) as [w' r]. cbn [snd] in Hr. subst r. cbn.
  by rewrite filter_all by (by apply Forall_forall).
Qed.

Lemma xrun_getEmployees (w : world) :
  outage w = None ->
  snd (xrun getEmployees w) =
  Returned (VArr (VObj <$> sort_rows (before "created_at" false)
                                     (rows_of (db w) "employees"))).
Proof.
  intros Hup. cbn -[xrespond].
  pose proof (xrespond_ordered_select w "employees" "*" "created_at" []
                (fun _ => true) false Hup eq_refl) as Hr.
  unfold select, from, start in *.
  destruct (xrespond w _) as [w' r]. cbn [snd] in Hr. subst r. cbn.
  by rewrite filter_all by (by apply Forall_forall).
Qed.

Lemma xrun_getTasks (employeeId : value) (w : world) :
  outage w = None ->
  snd (xrun (getTasks employeeId) w) =
  Returned (VArr (VObj <$> sort_rows (before "created_at" false)
                    (List.filter
                       (fun r => eq_value (get r "employee_id") employeeId)
                       (rows_of (db w) "tasks")))).
Proof.
  intros Hup. cbn -[xrespond].
  pose proof (xrespond_ordered_select w "tasks" "*" "created_at"
                [FEq "employee_id" employeeId] _ false Hup
                (where_eq "employee_id" employeeId)) as Hr.
  unfold eq, select, from, start in *. cbn -[xrespond] in *.
  destruct (xrespond w _) as [w' r]. cbn [snd] in Hr. subst r. cbn.
  erewrite List.filter_ext; [reflexivity|].
  intros r. cbv beta. by rewrite andb_true_r.
Qed.


Lemma getHistory_sent (params : value) :
  qsent (getHistory params) =
  Some (order "created_at" false
          (Request "history" (SELECT "*") (history_filters params)
                   false None false)).
Proof.
  unfold history_filters. cbn.
  by destruct (truthy (opt_get params "itemId")),
              (truthy (opt_get params "employeeId")).
Qed.

Lemma history_where (params : value) :
  ∃ keep, where_ (history_filters params) = Some keep ∧
          ∀ r, keep r = history_wanted params r.
Proof.
  unfold history_filters, history_wanted.
  destruct (truthy (opt_get params "itemId")),
           (truthy (opt_get params "employeeId"));
    eexists; (split; [reflexivity|]); intros r; cbn;
    by rewrite ?andb_true_r.
Qed.

Lemma xrun_getHistory (params : value) (w : world) :
  outage w = None ->
  snd (xrun (getHistory params) w) =
  Returned (VArr (VObj <$> sort_rows (before "created_at" false)
                    (List.filter (history_wanted params)
                                 (rows_of (db w) "history")))).
Proof.
  intros Hup.
  destruct (history_where params) as (keep & Hk & Hkeep).
  pose proof (xrespond_ordered_select w "history" "*" "created_at"
                (history_filters params) keep false Hup Hk) as Hr.
  pose proof (getHistory_sent params) as Hs.
  destruct (getHistory params) as [| |x k] eqn:Hp; try discriminate.
  injection Hs as ->.
  assert (∀ r, k r = if truthy (error r) then QThrow (Thrown (error r))
                     else QRet (data r)) as Hkont.
  { intros r. change (k r) with (qanswer (QAwait
      (order "created_at" false
         (Request "history" (SELECT "*") (history_filters params)
                  false None false)) k) r).
    rewrite <- Hp. reflexivity. }
  cbn -[xrespond]. destruct (xrespond w _) as [w' r]. cbn [snd] in Hr.
  subst r. rewrite Hkont. cbn.
  erewrite List.filter_ext; [reflexivity|]. exact Hkeep.
Qed.

(** X16: while the backend is up, [getItems] and [getEmployees] return
    every row of their table, [getTasks] the tasks whose [employee_id]
    equals the given id, and [getHistory] the records it asks for;
    nothing is lost or repeated, and where the rows of the table all
    hold a date in [created_at], the result is ordered newest first. *)
Theorem reads_return_newest_first (w : world) :
  outage w = None ->
  (∃ rows, snd (xrun getItems w) = Returned (VArr (VObj <$> rows)) ∧
           rows ≡ₚ rows_of (db w) "items" ∧
           (Forall dated (rows_of (db w) "items") ->
            StronglySorted newer rows)) ∧
  (∃ rows, snd (xrun getEmployees w) = Returned (VArr (VObj <$> rows)) ∧
           rows ≡ₚ rows_of (db w) "employees" ∧
           (Forall dated (rows_of (db w) "employees") ->
            StronglySorted newer rows)) ∧
  (∀ employeeId,
     ∃ rows, snd (xrun (getTasks employeeId) w) =
               Returned (VArr (VObj <$> rows)) ∧
             rows ≡ₚ List.filter
                       (fun r => eq_value (get r "employee_id") employeeId)
                       (rows_of (db w) "tasks") ∧
             (Forall dated (rows_of (db w) "tasks") ->
              StronglySorted newer rows)) ∧
  (∀ params,
     ∃ rows, snd (xrun (getHistory params) w) =
               Returned (VArr (VObj <$> rows)) ∧
             rows ≡ₚ List.filter (history_wanted params)
                                 (rows_of (db w) "history") ∧
             (Forall dated (rows_of (db w) "history") ->
              StronglySorted newer rows)).
Proof.
  intros Hup. split_and!.
  - eexists. split; [by apply xrun_getItems|].
    split; [apply sort_rows_perm | apply sort_rows_sorted].
  - eexists. split; [by apply xrun_getEmployees|].
    split; [apply sort_rows_perm | apply sort_rows_sorted].
  - intros employeeId. eexists. split; [by apply xrun_getTasks|].
    split; [apply sort_rows_perm|].
    intros Hd. by apply sort_rows_sorted, Forall_filter.
  - intros params. eexists. split; [by apply xrun_getHistory|].
    split; [apply sort_rows_perm|].
    intros Hd. by apply sort_rows_sorted, Forall_filter.
Qed.

(** X17: [getHistory] looks at an id only if it is truthy.  A call
    whose [itemId] and [employeeId] are both missing or falsy ([0], the
    empty string, [null]) is the same program as [getHistory()] without
    an argument, and while the backend is up it returns every history
    record. *)
Theorem getHistory_ignores_falsy_ids (params : value) :
  truthy (opt_get params "itemId") = false ->
  truthy (opt_get params "employeeId") = false ->
  getHistory params = getHistory VUndefined ∧
  qsent (getHistory params) =
    Some (order "created_at" false
            (Request "history" (SELECT "*") [] false None false)) ∧
  (∀ w, outage w = None ->
        ∃ rows, snd (xrun (getHistory params) w) =
                  Returned (VArr (VObj <$> rows)) ∧
                rows ≡ₚ rows_of (db w) "history").
Proof.
  intros Hitem Hemp. split_and!.
  - unfold getHistory. by rewrite Hitem, Hemp.
  - rewrite getHistory_sent. unfold history_filters. by rewrite Hitem, Hemp.
  - intros w Hup. eexists. split; [by apply xrun_getHistory|].
    rewrite sort_rows_perm. rewrite filter_all; [reflexivity|].
    apply Forall_forall. intros r _. unfold history_wanted.
    by rewrite Hitem, Hemp.
Qed.

(** ** Adding an item, then listing *)

Lemma sort_rows_newest_last (x : obj) (l : list obj) :
  Forall (fun r => before "created_at" false r x = false) l ->
  sort_rows (before "created_at" false) (l ++ [x]) =
  x :: sort_rows (before "created_at" false) l.
Proof.
  induction 1 as [|a l Ha _ IH]; [reflexivity|].
  simpl. rewrite IH. simpl. by rewrite Ha.
Qed.

(** X18: adding and listing compose.  While the backend is up, if every
    stored item holds a date in [created_at] that is earlier than the
    clock reading which [addItem] stamps, the next [getItems] returns
    the added row first. *)
Theorem addItem_then_getItems_first (item : obj) (w : world) :
  outage w = None ->
  Forall (fun r => ∃ t, get r "created_at" = VDate t ∧ t < clock w (reads w))
         (rows_of (db w) "items") ->
  ∃ row rest,
    snd (run (addItem item) w) = Returned (VObj row) ∧
    snd (xrun getItems (fst (run (addItem item) w))) =
      Returned (VArr (VObj row :: rest)).
Proof.
  intros Hup Hold.
  rewrite (run_addItem item w Hup). cbn [fst snd].
  eexists _, _. split; [reflexivity|].
  rewrite xrun_getItems by reflexivity. cbn [db].
  rewrite rows_of_insert, sort_rows_newest_last; [reflexivity|].
  eapply Forall_impl; [exact Hold|]. intros r (t & Hr & Ht). cbv beta.
  unfold before, item_row. rewrite Hr. unfold get at 1.
  rewrite lookup_insert_ne by done. rewrite lookup_insert_eq. cbn.
  by rewrite (proj2 (Z.compare_lt_iff _ _) Ht).
Qed.

(** ** The low-stock threshold *)

Lemma setting_row_key (threshold : value) :
  get (setting_row threshold) "setting_key" = LOW_STOCK_THRESHOLD.
Proof. reflexivity. Qed.

Lemma setting_row_value (threshold : value) :
  get (setting_row threshold) "setting_value" = threshold.
Proof. unfold setting_row, get. by rewrite lookup_insert_eq. Qed.

Lemma same_key_threshold (threshold : value) (r : obj) :
  same_key "setting_key" (setting_row threshold) r = is_threshold r.
Proof. reflexivity. Qed.

(** A stored row with the threshold merged over it. *)
Lemma merged_threshold (threshold : value) (r : obj) :
  is_threshold (setting_row threshold ∪ r) = true ∧
  get (setting_row threshold ∪ r) "setting_value" = threshold.
Proof.
  unfold is_threshold, get. split.
  - by rewrite (lookup_union_Some_l _ _ _ LOW_STOCK_THRESHOLD).
  - rewrite (lookup_union_Some_l _ _ _ threshold); [reflexivity|].
    unfold setting_row. by rewrite lookup_insert_eq.
Qed.

(** The threshold rows after the upsert: the stored ones with the new
    value merged in, or the new row if there was none. *)
Lemma threshold_rows_upsert (threshold : value) (rows : list obj) :
  List.filter is_threshold
    (upsert_row "setting_key" rows (setting_row threshold)) =
  match List.filter is_threshold rows with
  | [] => [setting_row threshold]
  | old => (fun r => setting_row threshold ∪ r) <$> old
  end.
Proof.
  unfold upsert_row.
  assert (List.filter is_threshold
            ((fun r => if is_threshold r then setting_row threshold ∪ r else r)
               <$> rows)
          = (fun r => setting_row threshold ∪ r)
              <$> List.filter is_threshold rows) as Hmap.
  { induction rows as [|r rows IH]; [reflexivity|].
    cbn. destruct (is_threshold r) eqn:Hr; cbn.
    - rewrite (proj1 (merged_threshold threshold r)). cbn. by rewrite IH.
    - by rewrite Hr. }
  destruct (existsb _ rows) eqn:Hex.
  - erewrite list_fmap_ext; [rewrite Hmap|].
    2:{ intros i r _. by rewrite same_key_threshold. }
    apply existsb_exists in Hex as (r & Hin & Hr).
    rewrite same_key_threshold in Hr.
    destruct (List.filter is_threshold rows) as [|r0 l] eqn:Hf; [|done].
    assert (In r (List.filter is_threshold rows)) as Habs
      by (by apply List.filter_In).
    rewrite Hf in Habs. destruct Habs.
  - rewrite List.filter_app. cbn.
    rewrite filter_none; [reflexivity|].
    apply Forall_forall. intros r Hin.
    destruct (is_threshold r) eqn:Hr; [|reflexivity].
    assert (existsb (same_key "setting_key" (setting_row threshold)) rows
            = true) as Hyes.
    { apply existsb_exists. exists r. split; [|by rewrite same_key_threshold].
      by apply list_elem_of_In. }
    congruence.
Qed.

(** The other rows of [settings] are not touched by the upsert. *)
Lemma other_rows_upsert (threshold : value) (rows : list obj) :
  List.filter (fun r => negb (is_threshold r))
    (upsert_row "setting_key" rows (setting_row threshold)) =
  List.filter (fun r => negb (is_threshold r)) rows.
Proof.
  unfold upsert_row. destruct (existsb _ rows).
  - induction rows as [|r rows IH]; [reflexivity|].
    cbn. rewrite same_key_threshold.
    destruct (is_threshold r) eqn:Hr; cbn.
    + rewrite (proj1 (merged_threshold threshold r)). cbn. exact IH.
    + rewrite Hr. cbn. by rewrite IH.
  - rewrite List.filter_app. cbn. by rewrite app_nil_r.
Qed.

Lemma threshold_rows_upsert_cons (threshold : value) (rows : list obj) :
  ∃ row rest,
    List.filter is_threshold
      (upsert_row "setting_key" rows (setting_row threshold)) = row :: rest ∧
    Forall (fun r => get r "setting_key" = LOW_STOCK_THRESHOLD ∧
                     get r "setting_value" = threshold) (row :: rest) ∧
    List.length (row :: rest) =
      Nat.max 1 (List.length (List.filter is_threshold rows)).
Proof.
  rewrite threshold_rows_upsert.
  destruct (List.filter is_threshold rows) as [|r0 l] eqn:Hf.
  - eexists _, _. split; [reflexivity|]. split; [|reflexivity].
    constructor; [|constructor].
    split; [apply setting_row_key | apply setting_row_value].
  - eexists _, _. split; [reflexivity|]. split.
    + change (Forall (fun r => get r "setting_key" = LOW_STOCK_THRESHOLD ∧
                               get r "setting_value" = threshold)
                ((fun r => setting_row threshold ∪ r) <$> (r0 :: l))).
      apply Forall_fmap, Forall_forall. intros r _. cbn.
      destruct (merged_threshold threshold r) as [Hk Hv].
      split; [|exact Hv]. by apply eq_value_VStr in Hk.
    + change (List.length ((fun r => setting_row threshold ∪ r) <$> (r0 :: l))
              = Nat.max 1 (List.length (r0 :: l))).
      by rewrite length_fmap.
Qed.

Lemma xrun_updateLowStockThreshold (threshold : value) (w : world) :
  outage w = None ->
  let rows' := upsert_row "setting_key" (rows_of (db w) "settings")
                          (setting_row threshold) in
  xrun (updateLowStockThreshold threshold) w =
  (World (<["settings" := rows']> (db w)) None (clock w) (reads w),
   Returned (first (VArr (VObj <$> take 1 (List.filter is_threshold rows'))))).
Proof.
  intros Hup rows'. cbn -[xrespond]. rewrite xrespond_up by done.
  unfold xexec.
  cbn -[upsert_row rows_of List.filter take setting_row].
  fold (setting_row threshold). fold rows'.
  erewrite (List.filter_ext _ is_threshold).
  2:{ intros r. rewrite orb_false_r. apply same_key_threshold. }
  unfold reply, shape, commit.
  cbn -[upsert_row rows_of List.filter take setting_row].
  reflexivity.
Qed.

Lemma run_getLowStockThreshold (w : world) :
  outage w = None ->
  snd (run getLowStockThreshold w) =
  match threshold_rows w with
  | [] => Returned VNull
  | row :: _ => Returned (VObj row)
  end.
Proof.
  intros Hup. unfold threshold_rows.
  cbn -[rows_of List.filter]. unfold respond. rewrite Hup.
  cbn -[rows_of List.filter].
  erewrite (List.filter_ext _ is_threshold).
  2:{ intros r. apply andb_true_r. }
  by destruct (List.filter is_threshold _) as [|row [|row' rest]].
Qed.

(** The tables after the upsert of the threshold went through. *)
Lemma threshold_rows_after (threshold : value) (w : world) :
  outage w = None ->
  threshold_rows (fst (xrun (updateLowStockThreshold threshold) w)) =
  List.filter is_threshold
    (upsert_row "setting_key" (rows_of (db w) "settings")
                (setting_row threshold)).
Proof.
  intros Hup. rewrite xrun_updateLowStockThreshold by done.
  unfold threshold_rows. cbn [fst db]. by rewrite rows_of_insert.
Qed.

(** X19: writing and reading the threshold compose.  While the backend
    is up, [updateLowStockThreshold(v)] returns a [settings] row keyed
    ["LOW_STOCK_THRESHOLD"] whose [setting_value] is [v], and a
    following [getLowStockThreshold()] returns that same row, whatever
    the table held before. *)
Theorem threshold_update_then_get (threshold : value) (w : world) :
  outage w = None ->
  threshold ≠ VUndefined ->
  ∃ row,
    snd (xrun (updateLowStockThreshold threshold) w) = Returned (VObj row) ∧
    snd (run getLowStockThreshold
             (fst (xrun (updateLowStockThreshold threshold) w)))
      = Returned (VObj row) ∧
    get row "setting_key" = LOW_STOCK_THRESHOLD ∧
    get row "setting_value" = threshold.
Proof.
  intros Hup _.
  destruct (threshold_rows_upsert_cons threshold (rows_of (db w) "settings"))
    as (row & rest & Hrows & Hall & _).
  exists row. split_and!.
  - rewrite xrun_updateLowStockThreshold by done. cbn [snd].
    by rewrite Hrows.
  - rewrite run_getLowStockThreshold.
    + by rewrite threshold_rows_after, Hrows.
    + by rewrite xrun_updateLowStockThreshold.
  - by apply Forall_cons in Hall as [[Hk _] _].
  - by apply Forall_cons in Hall as [[_ Hv] _].
Qed.

(** X20: what the upsert of the threshold does to the tables, while the
    backend is up: afterwards there is a threshold row, there are as
    many threshold rows as before unless there was none, each of them
    holds the new value, the other rows of [settings] are the same, in
    the same order, and every other table is as it was. *)
Theorem threshold_update_keeps_one_row (threshold : value) (w : world) :
  outage w = None ->
  let w' := fst (xrun (updateLowStockThreshold threshold) w) in
  List.length (threshold_rows w') =
    Nat.max 1 (List.length (threshold_rows w)) ∧
  Forall (fun r => get r "setting_value" = threshold) (threshold_rows w') ∧
  List.filter (fun r => negb (is_threshold r)) (rows_of (db w') "settings") =
    List.filter (fun r => negb (is_threshold r)) (rows_of (db w) "settings") ∧
  (∀ t, t ≠ "settings" -> rows_of (db w') t = rows_of (db w) t).
Proof.
  intros Hup w'. subst w'.
  destruct (threshold_rows_upsert_cons threshold (rows_of (db w) "settings"))
    as (row & rest & Hrows & Hall & Hlen).
  rewrite threshold_rows_after, Hrows by done. split_and!.
  - exact Hlen.
  - eapply Forall_impl; [exact Hall|]. by intros r [_ Hv].
  - rewrite xrun_updateLowStockThreshold by done. cbn [fst db].
    rewrite rows_of_insert. apply other_rows_upsert.
  - intros t Ht. rewrite xrun_updateLowStockThreshold by done.
    cbn [fst db]. by apply rows_of_insert_ne.
Qed.

(** X21: the last write wins and the key stays unique.  While the
    backend is up and [settings] holds at most one threshold row, two
    updates in a row leave exactly one threshold row, and it holds the
    value of the second. *)
Theorem threshold_updated_twice (a b : value) (w : world) :
  outage w = None ->
  (List.length (threshold_rows w) ≤ 1)%nat ->
  let w2 := fst (xrun (updateLowStockThreshold b)
                      (fst (xrun (updateLowStockThreshold a) w))) in
  ∃ row, threshold_rows w2 = [row] ∧ get row "setting_value" = b.
Proof.
  intros Hup Hone w2. subst w2.
  set (w1 := fst (xrun (updateLowStockThreshold a) w)).
  assert (outage w1 = None) as Hup1
    by (subst w1; by rewrite xrun_updateLowStockThreshold).
  destruct (threshold_rows_upsert_cons b (rows_of (db w1) "settings"))
    as (row & rest & Hrows & Hall & Hlen).
  destruct (threshold_rows_upsert_cons a (rows_of (db w) "settings"))
    as (row1 & rest1 & Hrows1 & _ & Hlen1).
  rewrite threshold_rows_after, Hrows by done.
  fold (threshold_rows w1) in Hlen.
  unfold w1 in Hlen. rewrite threshold_rows_after, Hrows1 in Hlen by done.
  fold (threshold_rows w) in Hlen1.
  exists row. split.
  - destruct rest; [reflexivity|]. cbn in Hlen, Hlen1. lia.
  - by apply Forall_cons in Hall as [[_ Hv] _].
Qed.

(** X22: the outcomes of [updateLowStockThreshold].  An error of the
    client is thrown as it arrived.  Otherwise the function reads
    [data[0]] without a guard: it returns the first row of [data];
    for an empty [data] it returns [undefined]; and for [data] being
    [null] it raises a TypeError, where [getLowStockThreshold] returns
    [null] in both of these cases. *)
Theorem updateLowStockThreshold_outcomes (threshold : value) :
  qpasses_errors (updateLowStockThreshold threshold) ∧
  ∀ r, truthy (error r) = false ->
       (∀ row rest, data r = VArr (row :: rest) ->
                    qanswer (updateLowStockThreshold threshold) r = QRet row) ∧
       (data r = VArr [] ->
        qanswer (updateLowStockThreshold threshold) r = QRet VUndefined ∧
        ∀ clk, answer getLowStockThreshold clk 0 r = Ret VNull) ∧
       (data r = VNull ->
        qanswer (updateLowStockThreshold threshold) r = QThrow TypeError ∧
        ∀ clk, answer getLowStockThreshold clk 0 r = Ret VNull).
Proof.
  split; [qpass_errors|].
  intros r He. split_and!.
  - intros row rest Hd. cbn. by rewrite He, Hd.
  - intros Hd. cbn. by rewrite He, Hd.
  - intros Hd. cbn. by rewrite He, Hd.
Qed.

(** ** Changing a PIN, then logging in *)

Lemma employee_payload_pin_hash (sha256_base64 : value -> string)
    (employee old : obj) (updated : Z) :
  truthy (get employee "pin") = true ->
  get (employee_payload sha256_base64 employee updated ∪ old) "pin_hash" =
  VStr (hashPin sha256_base64 (get employee "pin")).
Proof.
  intros Hpin. unfold employee_payload. rewrite Hpin.
  apply get_present, lookup_union_Some_l. by rewrite lookup_insert_eq.
Qed.

Lemma login_matches_one (sha256_base64 : value -> string) (email : string)
    (password : value) (d : tables) (clk : nat -> Z) (n : nat)
    (pre post : list obj) (row : obj) (hit : bool) :
  Forall (fun r => get r "email" ≠ VStr (trim (toLowerCase email)))
         (pre ++ post) ->
  get row "email" = VStr (trim (toLowerCase email)) ->
  eq_value (get row "pin_hash") (VStr (hashPin sha256_base64 password)) = hit ->
  login_matches sha256_base64 email password
    (World (<["employees" := (pre ++ row :: post)%list]> d) None clk n) =
  if hit then [row] else [].
Proof.
  intros Hothers Hemail Hhash. unfold login_matches. cbn [db].
  rewrite rows_of_insert, List.filter_app. cbn [List.filter].
  rewrite Hemail, eq_value_VStr_refl, Hhash. cbn [andb].
  apply Forall_app in Hothers as [Hpre Hpost].
  rewrite !filter_none.
  - by destruct hit.
  - eapply Forall_impl; [exact Hpost|]. intros r Hr. cbv beta.
    by rewrite eq_value_VStr_false.
  - eapply Forall_impl; [exact Hpre|]. intros r Hr. cbv beta.
    by rewrite eq_value_VStr_false.
Qed.

(** X23: changing a PIN and logging in compose.  While the backend is
    up, let [updateEmployee] carry a truthy [pin] and address exactly
    one employee, whose email after the update is stored in the form in
    which [login] looks it up and is the email of no other employee.
    Then the call returns the merged row, a [login] with that email and
    the new PIN returns the same row, and a [login] with any PIN whose
    digest differs from that of the new one fails. *)
Theorem updateEmployee_pin_then_login (sha256_base64 : value -> string)
    (employee : obj) (email : string) (w : world)
    (pre post : list obj) (old : obj) :
  outage w = None ->
  rows_of (db w) "employees" = (pre ++ old :: post)%list ->
  eq_value (get old "id") (get employee "id") = true ->
  Forall (other_key "id" (get employee "id")) (pre ++ post) ->
  truthy (get employee "pin") = true ->
  let row' := employee_payload sha256_base64 employee (clock w (reads w))
              ∪ old in
  get row' "email" = VStr (trim (toLowerCase email)) ->
  Forall (fun r => get r "email" ≠ VStr (trim (toLowerCase email)))
         (pre ++ post) ->
  let w1 := fst (run (updateEmployee sha256_base64 employee) w) in
  snd (run (updateEmployee sha256_base64 employee) w) = Returned (VObj row') ∧
  snd (run (login sha256_base64 email (get employee "pin")) w1)
    = Returned (VObj row') ∧
  (∀ other,
     hashPin sha256_base64 other ≠ hashPin sha256_base64 (get employee "pin") ->
     snd (run (login sha256_base64 email other) w1) = Raised LOGIN_FAILED).
Proof.
  intros Hup Hrows Hold Hkeys Hpin row' Hemail Hothers w1.
  apply Forall_app in Hkeys as [Hpre Hpost].
  assert (run (updateEmployee sha256_base64 employee) w =
          (World (<["employees" := (pre ++ row' :: post)%list]> (db w))
                 None (clock w) (S (reads w)),
           Returned (VObj row'))) as Hrun.
  { rewrite run_updateEmployee. rewrite respond_up by done.
    cbn [tick db clock reads fst snd].
    by rewrite (exec_update_one (db w) "employees" "id" (get employee "id")
                  _ pre post old). }
  subst w1. rewrite Hrun. cbn [fst snd]. split_and!.
  - reflexivity.
  - rewrite run_login. cbn [outage].
    rewrite (login_matches_one sha256_base64 email (get employee "pin")
               (db w) (clock w) (S (reads w)) pre post row' true);
      [reflexivity | done | done |].
    unfold row'. rewrite employee_payload_pin_hash by done.
    apply eq_value_VStr_refl.
  - intros other Hother. rewrite run_login. cbn [outage].
    rewrite (login_matches_one sha256_base64 email other
               (db w) (clock w) (S (reads w)) pre post row' false);
      [reflexivity | done | done |].
    unfold row'. rewrite employee_payload_pin_hash by done.
    apply eq_value_VStr_false. intros [= Heq]. by apply Hother.
Qed.

(** ** Searching with any query *)

Lemma compile_cons (c : ascii) (p : string) :
  compile (String c p) =
  if Ascii.eqb c backslash then
    match p with
    | EmptyString => None
    | String d p' => cons (Lit d) <$> compile p'
    end
  else if Ascii.eqb c "%" then cons Any <$> compile p
  else if Ascii.eqb c "_" then cons One <$> compile p
  else cons (Lit c) <$> compile p.
Proof. reflexivity. Qed.

(** A pattern that ends in [%] is never refused. *)
Lemma compile_percent_end (q : string) :
  (∃ ts, compile (stars_to_percents (q ++ "%")) = Some ts) ∧
  (∀ c, ∃ ts, compile (String c (stars_to_percents (q ++ "%"))) = Some ts).
Proof.
  induction q as [|d q [IH1 IH2]].
  - split; [by eexists|]. intros c. rewrite compile_cons. cbn.
    destruct (Ascii.eqb c backslash); [by eexists|].
    destruct (Ascii.eqb c "%"); [by eexists|].
    destruct (Ascii.eqb c "_"); by eexists.
  - split; [apply IH2|]. intros c.
    change (stars_to_percents (String d q ++ "%")) with
      (String (star_to_percent d) (stars_to_percents (q ++ "%"))).
    destruct IH1 as [ts1 H1].
    destruct (IH2 (star_to_percent d)) as [ts2 H2].
    rewrite compile_cons, H1, H2.
    destruct (Ascii.eqb c backslash); [by eexists|].
    destruct (Ascii.eqb c "%"); [by eexists|].
    destruct (Ascii.eqb c "_"); by eexists.
Qed.

Lemma compile_search_pattern (query : string) :
  ∃ ts, compile (stars_to_percents ("%" ++ query ++ "%")) = Some (Any :: ts).
Proof.
  destruct (compile_percent_end query) as [[ts Hts] _].
  exists ts. change ("%" ++ query ++ "%") with (String "%" (query ++ "%")).
  cbn [stars_to_percents compile]. by rewrite Hts.
Qed.

(** X24: [searchItems] never sends a pattern that the backend refuses.
    Whatever the query holds (wildcards, backslashes, nothing at all),
    while the backend is up the call returns an array and raises
    nothing; the array holds rows of [items], in table order, and every
    one of them has a string for a [name]. *)
Theorem searchItems_always_answers (query : string) (w : world) :
  outage w = None ->
  ∃ keep,
    snd (run (searchItems query) w) =
      Returned (VArr (VObj <$> List.filter keep (rows_of (db w) "items"))) ∧
    ∀ row, keep row = true -> ∃ name, get row "name" = VStr name.
Proof.
  intros Hup. destruct (compile_search_pattern query) as [ts Hts].
  exists (fun row => match get row "name" with
                     | VStr name => matches (Any :: ts) name
                     | _ => false
                     end).
  split.
  - cbn -[rows_of List.filter compile stars_to_percents String.append matches].
    unfold respond. rewrite Hup. unfold exec.
    cbn -[rows_of List.filter compile stars_to_percents String.append matches].
    rewrite Hts.
    cbn -[rows_of List.filter matches].
    erewrite List.filter_ext; [reflexivity|].
    intros row. cbv beta. by rewrite andb_true_r.
  - intros row. destruct (get row "name"); try discriminate. eauto.
Qed.

(** X25: the empty query.  While the backend is up, [searchItems("")]
    returns every item whose [name] is a string, in table order; items
    whose [name] is missing or [null] are left out. *)
Theorem searchItems_empty_query (w : world) :
  outage w = None ->
  snd (run (searchItems "") w) =
  Returned (VArr (VObj <$> List.filter
                             (fun row => match get row "name" with
                                         | VStr _ => true
                                         | _ => false
                                         end)
                             (rows_of (db w) "items"))).
Proof.
  intros Hup.
  cbn -[rows_of List.filter matches].
  unfold respond. rewrite Hup. unfold exec.
  cbn -[rows_of List.filter matches].
  erewrite List.filter_ext; [reflexivity|].
  intros row. cbv beta. rewrite andb_true_r.
  destruct (get row "name") as [| | | |name| | |]; try reflexivity.
  by rewrite matches_any, matches_only_any.
Qed.

(** * Concrete instances for the other functions *)

(** Adding a knob to the shop. *)
Lemma addItem_stores_stamped_input_witness :
  outage shop = None ∧
  ∃ row,
    snd (run (addItem (named "Knob")) shop) = Returned (VObj row) ∧
    row !! "name" = Some (VStr "Knob") ∧
    row !! "created_at" = Some (VDate 1700000000000) ∧
    row !! "updated_at" = Some (VDate 1700000000001).
Proof.
  split; [reflexivity|].
  destruct (addItem_stores_stamped_input (named "Knob") shop eq_refl)
    as (row & Hrun & Hc & Hu & Hk & _).
  exists row. rewrite Hrun. split; [reflexivity|].
  split; [by rewrite Hk | by split].
Defined.

(** Restocking the widget: the gadget and the widget's name stay. *)
Lemma update_merges_into_addressed_row_witness :
  let item : obj := <["id" := VNum 1]> {[ "stock" := VNum 9 ]} in
  outage shop = None ∧
  ∃ row', rows_of (db (fst (run (updateItem item) shop))) "items"
            = [ row'; gadget ] ∧
          snd (run (updateItem item) shop) = Returned (VObj row') ∧
          merges_into item 1700000000000 widget row'.
Proof.
  intros item. split; [reflexivity|].
  apply (proj1 (update_merges_into_addressed_row shop eq_refl)
               item [] widget [gadget]);
    [reflexivity | reflexivity | constructor | repeat constructor].
Defined.

(** Updating an item that is not in the shop. *)
Lemma update_without_match_fails_witness :
  let item : obj := <["id" := VNum 3]> {[ "stock" := VNum 9 ]} in
  outage shop = None ∧
  Forall (other_key "id" (VNum 3)) (rows_of (db shop) "items") ∧
  snd (run (updateItem item) shop) = Raised (Thrown not_single) ∧
  db (fst (run (updateItem item) shop)) = db shop.
Proof.
  intros item. split; [reflexivity|].
  assert (Forall (other_key "id" (get item "id")) (rows_of (db shop) "items"))
    as Hnone by (repeat constructor).
  split; [exact Hnone|].
  exact (proj1 (update_without_match_fails toy_digest shop eq_refl)
               item Hnone).
Defined.

(** Deleting the widget from the shop. *)
Lemma delete_removes_addressed_rows_witness :
  outage shop = None ∧
  removed_keyed "items" "id" (VNum 1) shop
                (fst (run (deleteItem (VNum 1)) shop)) ∧
  rows_of (db (fst (run (deleteItem (VNum 1)) shop))) "items" = [ gadget ].
Proof.
  split; [reflexivity|].
  destruct (proj1 (delete_removes_addressed_rows shop (VNum 1) eq_refl))
    as [Hrem _].
  split; [exact Hrem|]. destruct Hrem as [_ ->]. by vm_compute.
Defined.

Lemma delete_twice_is_delete_once_witness :
  outage shop = None ∧
  run (deleteItem (VNum 1)) (fst (run (deleteItem (VNum 1)) shop)) =
    run (deleteItem (VNum 1)) shop.
Proof.
  split; [reflexivity|].
  exact (proj1 (delete_twice_is_delete_once shop (VNum 1) eq_refl)).
Defined.

(** Ann logs in: her stored email is in the looked-up form. *)
Lemma login_returns_normalised_emails_witness :
  snd (run (login toy_digest " User@Example.com" (VStr "1234")) staff) =
    Returned (VObj ann) ∧
  ∃ stored, get ann "email" = VStr stored ∧
            trim (toLowerCase stored) = stored ∧
            stored = trim (toLowerCase " User@Example.com").
Proof.
  assert (snd (run (login toy_digest " User@Example.com" (VStr "1234")) staff)
          = Returned (VObj ann)) as Hrun by (by vm_compute).
  split; [exact Hrun|].
  exact (login_returns_normalised_emails toy_digest " User@Example.com"
           (VStr "1234") staff ann Hrun).
Defined.

(** Carol is registered and logs in. *)
Lemma addEmployee_then_login_witness :
  let carol : obj :=
    <["email" := VStr "carol@example.com"]> {[ "pin" := VStr "4321" ]} in
  outage staff = None ∧
  get carol "email" = VStr (trim (toLowerCase "Carol@Example.com ")) ∧
  login_matches toy_digest "Carol@Example.com " (get carol "pin") staff = [] ∧
  ∃ row,
    snd (run (addEmployee toy_digest carol) staff) = Returned (VObj row) ∧
    snd (run (login toy_digest "Carol@Example.com " (get carol "pin"))
             (fst (run (addEmployee toy_digest carol) staff)))
      = Returned (VObj row).
Proof.
  intros carol.
  split; [reflexivity|]. split; [reflexivity|]. split; [reflexivity|].
  apply (addEmployee_then_login toy_digest carol "Carol@Example.com " staff);
    reflexivity.
Defined.

(** A task is created next to an older one and deleted again. *)
Lemma addTask_then_deleteTask_witness :
  let task_id := VStr "TASK1700000000000" in
  let w1 := fst (run (addTask (named "Count stock")) one_task) in
  outage one_task = None ∧
  Forall (other_key "task_id" task_id) (rows_of (db one_task) "tasks") ∧
  snd (run (deleteTask task_id) w1) = Returned success ∧
  rows_of (db (fst (run (deleteTask task_id) w1))) "tasks" =
    rows_of (db one_task) "tasks".
Proof.
  intros task_id w1. split; [reflexivity|].
  assert (Forall (other_key "task_id" task_id) (rows_of (db one_task) "tasks"))
    as Hfresh by (repeat constructor).
  split; [exact Hfresh|].
  exact (proj2 (addTask_then_deleteTask (named "Count stock") one_task
                  eq_refl Hfresh)).
Defined.

(** Listing the stamped shop: the gadget is newer than the widget. *)
Lemma reads_return_newest_first_witness :
  outage stamped_shop = None ∧
  Forall dated (rows_of (db stamped_shop) "items") ∧
  snd (xrun getItems stamped_shop) =
    Returned (VArr [ VObj old_gadget; VObj old_widget ]) ∧
  ∃ rows, snd (xrun getItems stamped_shop) = Returned (VArr (VObj <$> rows)) ∧
          rows ≡ₚ rows_of (db stamped_shop) "items" ∧
          (Forall dated (rows_of (db stamped_shop) "items") ->
           StronglySorted newer rows).
Proof.
  split; [reflexivity|].
  split; [repeat constructor; by eexists|].
  split; [by vm_compute|].
  exact (proj1 (reads_return_newest_first stamped_shop eq_refl)).
Defined.

(** [getHistory({ itemId: 0 })] asks for everything. *)
Lemma getHistory_ignores_falsy_ids_witness :
  let params := VObj {[ "itemId" := VNum 0 ]} in
  truthy (opt_get params "itemId") = false ∧
  truthy (opt_get params "employeeId") = false ∧
  getHistory params = getHistory VUndefined.
Proof.
  intros params. split; [reflexivity|]. split; [reflexivity|].
  exact (proj1 (getHistory_ignores_falsy_ids params eq_refl eq_refl)).
Defined.

(** A knob added to the stamped shop is listed first. *)
Lemma addItem_then_getItems_first_witness :
  outage stamped_shop = None ∧
  ∃ row rest,
    snd (run (addItem (named "Knob")) stamped_shop) = Returned (VObj row) ∧
    snd (xrun getItems (fst (run (addItem (named "Knob")) stamped_shop))) =
      Returned (VArr (VObj row :: rest)).
Proof.
  split; [reflexivity|].
  apply (addItem_then_getItems_first (named "Knob") stamped_shop eq_refl).
  repeat constructor; eexists; (split; [reflexivity | by vm_compute]).
Defined.

(** The threshold goes from 5 to 9. *)
Lemma threshold_update_then_get_witness :
  outage configured = None ∧
  VNum 9 ≠ VUndefined ∧
  ∃ row,
    snd (xrun (updateLowStockThreshold (VNum 9)) configured)
      = Returned (VObj row) ∧
    snd (run getLowStockThreshold
             (fst (xrun (updateLowStockThreshold (VNum 9)) configured)))
      = Returned (VObj row) ∧
    get row "setting_key" = LOW_STOCK_THRESHOLD ∧
    get row "setting_value" = VNum 9.
Proof.
  split; [reflexivity|].
  assert (VNum 9 ≠ VUndefined) as Hdef by discriminate.
  split; [exact Hdef|].
  exact (threshold_update_then_get (VNum 9) configured eq_refl Hdef).
Defined.

Lemma threshold_update_keeps_one_row_witness :
  let w' := fst (xrun (updateLowStockThreshold (VNum 9)) configured) in
  outage configured = None ∧
  List.length (threshold_rows w') = 1%nat ∧
  List.filter (fun r => negb (is_threshold r)) (rows_of (db w') "settings") =
    [ {[ "setting_key" := VStr "CURRENCY" ]} ].
Proof.
  intros w'. split; [reflexivity|].
  destruct (threshold_update_keeps_one_row (VNum 9) configured eq_refl)
    as (Hlen & _ & Hothers & _).
  split; [exact Hlen | exact Hothers].
Defined.

(** From an unconfigured store: 5, then 9. *)
Lemma threshold_updated_twice_witness :
  let w2 := fst (xrun (updateLowStockThreshold (VNum 9))
                      (fst (xrun (updateLowStockThreshold (VNum 5)) staff))) in
  outage staff = None ∧
  (List.length (threshold_rows staff) ≤ 1)%nat ∧
  ∃ row, threshold_rows w2 = [row] ∧ get row "setting_value" = VNum 9.
Proof.
  intros w2. split; [reflexivity|].
  assert (List.length (threshold_rows staff) ≤ 1)%nat as Hone
    by (vm_compute; lia).
  split; [exact Hone|].
  exact (threshold_updated_twice (VNum 5) (VNum 9) staff eq_refl Hone).
Defined.

(** A response with neither an error nor data. *)
Lemma updateLowStockThreshold_outcomes_witness :
  truthy (error (Response VNull VNull)) = false ∧
  qanswer (updateLowStockThreshold (VNum 9)) (Response VNull VNull) =
    QThrow TypeError.
Proof.
  split; [reflexivity|].
  destruct (proj2 (updateLowStockThreshold_outcomes (VNum 9))
              (Response VNull VNull) eq_refl) as (_ & _ & Hnull).
  by destruct (Hnull eq_refl).
Defined.

(** Bob changes his PIN from 1111 to 2222. *)
Lemma updateEmployee_pin_then_login_witness :
  let change : obj := <["id" := VNum 7]> {[ "pin" := VStr "2222" ]} in
  let w1 := fst (run (updateEmployee toy_digest change) office) in
  outage office = None ∧
  rows_of (db office) "employees" = [ ann; bob ] ∧
  truthy (get change "pin") = true ∧
  (∃ row', snd (run (login toy_digest "Bob@Example.com" (VStr "2222")) w1)
             = Returned (VObj row') ∧
           get row' "pin_hash" = VStr (toy_digest (VStr "2222"))) ∧
  snd (run (login toy_digest "Bob@Example.com" (VStr "1111")) w1)
    = Raised LOGIN_FAILED.
Proof.
  intros change w1.
  split; [reflexivity|]. split; [reflexivity|]. split; [reflexivity|].
  destruct (updateEmployee_pin_then_login toy_digest change "Bob@Example.com"
              office [ann] [] bob eq_refl eq_refl eq_refl)
    as (_ & Hnew & Hold);
    [ repeat constructor | reflexivity | by vm_compute
    | repeat constructor; by vm_compute | ].
  split.
  - eexists. split; [exact Hnew|]. by vm_compute.
  - apply Hold. by vm_compute.
Defined.

(** Searching the shop for a backslash, and for nothing. *)
Lemma searchItems_always_answers_witness :
  outage three_items = None ∧
  snd (run (searchItems (String backslash "")) three_items) =
    Returned (VArr []) ∧
  ∃ keep,
    snd (run (searchItems (String backslash "")) three_items) =
      Returned (VArr (VObj <$> List.filter keep
                                 (rows_of (db three_items) "items"))) ∧
    ∀ row, keep row = true -> ∃ name, get row "name" = VStr name.
Proof.
  split; [reflexivity|]. split; [by vm_compute|].
  exact (searchItems_always_answers (String backslash "") three_items eq_refl).
Defined.

Lemma searchItems_empty_query_witness :
  outage three_items = None ∧
  snd (run (searchItems "") three_items) =
    Returned (VArr [ VObj (named "Widget"); VObj (named "WIDGETRY");
                     VObj (named "Gadget") ]).
Proof.
  split; [reflexivity|].
  rewrite (searchItems_empty_query three_items eq_refl). by vm_compute.
Defined.

(** Calls made while the backend is failing. *)
Lemma item_calls_pass_errors_witness :
  outage staff_offline = Some {[ "message" := VStr "fetch failed" ]} ∧
  snd (run (addItem (named "Knob")) staff_offline) =
    Raised (Thrown (VObj {[ "message" := VStr "fetch failed" ]})) ∧
  db (fst (run (addItem (named "Knob")) staff_offline)) = db staff_offline.
Proof.
  split; [reflexivity|].
  destruct item_calls_pass_errors as (_ & Hadd & _).
  exact (proj2 (Hadd (named "Knob")) staff_offline _ eq_refl).
Defined.

Lemma employee_calls_pass_errors_witness :
  outage staff_offline = Some {[ "message" := VStr "fetch failed" ]} ∧
  snd (run (deleteEmployee (VNum 7)) staff_offline) =
    Raised (Thrown (VObj {[ "message" := VStr "fetch failed" ]})) ∧
  db (fst (run (deleteEmployee (VNum 7)) staff_offline)) = db staff_offline.
Proof.
  split; [reflexivity|].
  destruct (employee_calls_pass_errors toy_digest) as (_ & _ & _ & Hdel).
  exact (proj2 (Hdel (VNum 7)) staff_offline _ eq_refl).
Defined.

Lemma history_calls_pass_errors_witness :
  outage staff_offline = Some {[ "message" := VStr "fetch failed" ]} ∧
  snd (xrun (getHistory VUndefined) staff_offline) =
    Raised (Thrown (VObj {[ "message" := VStr "fetch failed" ]})) ∧
  db (fst (xrun (getHistory VUndefined) staff_offline)) = db staff_offline.
Proof.
  split; [reflexivity|].
  destruct history_calls_pass_errors as (Hget & _).
  exact (proj2 (Hget VUndefined) staff_offline _ eq_refl).
Defined.

Lemma task_calls_pass_errors_witness :
  outage staff_offline = Some {[ "message" := VStr "fetch failed" ]} ∧
  snd (run (updateTask (named "Count stock")) staff_offline) =
    Raised (Thrown (VObj {[ "message" := VStr "fetch failed" ]})) ∧
  db (fst (run (updateTask (named "Count stock")) staff_offline))
    = db staff_offline.
Proof.
  split; [reflexivity|].
  destruct task_calls_pass_errors as (_ & _ & Hupd & _).
  exact (proj2 (Hupd (named "Count stock")) staff_offline _ eq_refl).
Defined.

(** Restocking the widget leaves the gadget where it is. *)
Lemma updates_touch_only_addressed_rows_witness :
  let item : obj := <["id" := VNum 1]> {[ "stock" := VNum 9 ]} in
  rows_of (db shop) "items" !! 1%nat = Some gadget ∧
  other_key "id" (get item "id") gadget ∧
  rows_of (db (fst (run (updateItem item) shop))) "items" !! 1%nat
    = Some gadget.
Proof.
  intros item. split; [reflexivity|].
  assert (other_key "id" (get item "id") gadget) as Hother by reflexivity.
  split; [exact Hother|].
  destruct (updates_touch_only_addressed_rows toy_digest shop) as (Hitem & _).
  destruct (Hitem item) as (_ & _ & Hrows).
  exact (Hrows 1%nat gadget eq_refl Hother).
Defined.
